(** * The read model of the multi-agent trading dashboard (dashboard.py)

    The dashboard reads two SQLite tables, [trades] and [market_sentiment],
    through four queries, and turns the four frames into headline metrics,
    charts, a leaderboard and a decision log.  This file embeds the queries
    (with the meaning SQL gives them) and the Python code that consumes them,
    and settles what the specification says about both.

    Conventions of the embedding.
    - A table is the list of its rows in storage order; a SQL NULL is [None].
    - REAL columns are exact rationals ([Qc]); INTEGER columns and counts are
      [Z].  A timestamp is an instant on the producer's clock, of which the
      code uses only order and equality; it is a [Z].
    - [ORDER BY] and [sort_values] are a merge sort on the key.  Rows with
      equal keys come out in an order of the sort's own, as they do in
      SQLite and in pandas; what is proved of a sorted frame holds for
      every order of its ties, except where a statement says that a
      given order of ties is not kept.
    - The groups of a [GROUP BY] are accumulated in a finite map and
      returned in the order of the grouping key, a NULL key first, which is
      the order SQLite returns them in.
    - pandas types a column by the rows that were loaded: a REAL column
      holds NaN for NULL, unless every loaded row is NULL, in which case
      its cells are None.
    - A query that cannot run raises; nothing in dashboard.py catches it. *)

From stdpp Require Import base numbers list strings gmap sorting.
From Stdlib Require Import QArith Qcanon Qround Lqa.

Open Scope Z_scope.

(** ** Tables *)

Module trades.
(** One row of the table [trades]. *)
Record row := mk {
  id : Z;
  timestamp : Z;
  symbol : option string;
  action : option string;
  entry : option Qc;
  sl : option Qc;
  tp : option Qc;
  exit_price : option Qc;
  profit : option Qc;
  reason : option string;
  reflection : option string;
  agent_name : option string;
  confidence : option Qc }.
End trades.

Module market_sentiment.
(** One row of the table [market_sentiment]; these five columns are also
    the columns [load_sentiment_history] selects. *)
Record row := mk {
  timestamp : Z;
  sentiment_score : option Qc;
  sentiment_signal : option string;
  fundamental_score : option Qc;
  fundamental_signal : option string }.
End market_sentiment.

(** ** Frames returned by the queries *)

(** A cell of a pandas row, as [Series.get] hands it out. *)
Inductive cell :=
  | CNull
  | CInt (z : Z)
  | CReal (q : Qc)
  | CText (s : string).

Definition cell_of_real (o : option Qc) : cell :=
  match o with Some q => CReal q | None => CNull end.
Definition cell_of_text (o : option string) : cell :=
  match o with Some s => CText s | None => CNull end.

(** [pd.notna]: false on None and NaN. *)
Definition notna (c : cell) : bool :=
  match c with CNull => false | _ => true end.

Module trades_df.
(** One row of the frame of [load_trades]: the twelve columns of its
    SELECT list. *)
Record row := mk {
  id : Z;
  timestamp : Z;
  symbol : option string;
  action : option string;
  entry : option Qc;
  sl : option Qc;
  tp : option Qc;
  exit_price : option Qc;
  profit : option Qc;
  reason : option string;
  agent_name : option string;
  confidence : option Qc }.

(** [row[key]] where the key is a column; [None] where it is not. *)
Definition lookup (key : string) (r : row) : option cell :=
  if String.eqb key "id" then Some (CInt (id r))
  else if String.eqb key "timestamp" then Some (CInt (timestamp r))
  else if String.eqb key "symbol" then Some (cell_of_text (symbol r))
  else if String.eqb key "action" then Some (cell_of_text (action r))
  else if String.eqb key "entry" then Some (cell_of_real (entry r))
  else if String.eqb key "sl" then Some (cell_of_real (sl r))
  else if String.eqb key "tp" then Some (cell_of_real (tp r))
  else if String.eqb key "exit_price" then Some (cell_of_real (exit_price r))
  else if String.eqb key "profit" then Some (cell_of_real (profit r))
  else if String.eqb key "reason" then Some (cell_of_text (reason r))
  else if String.eqb key "agent_name" then Some (cell_of_text (agent_name r))
  else if String.eqb key "confidence" then Some (cell_of_real (confidence r))
  else None.

(** [row.get(key, default)]: pandas returns the default for a key that is
    not in the row's index. *)
Definition get (key : string) (dflt : cell) (r : row) : cell :=
  default dflt (lookup key r).
End trades_df.

Module agent_perf.
(** One row of the frame of [load_agent_performance]. *)
Record row := mk {
  agent_name : option string;
  total_trades : Z;
  wins : Z;
  total_profit : Qc;
  avg_profit : Qc;
  avg_confidence : option Qc }.
End agent_perf.

Module equity.
(** One row of the frame of [get_equity_curve]. *)
Record row := mk {
  timestamp : Z;
  cumulative_profit : Qc }.
End equity.

Global Instance cell_eq_dec : EqDecision cell.
Proof. solve_decision. Defined.
Global Instance trades_row_eq_dec : EqDecision trades.row.
Proof. solve_decision. Defined.
Global Instance sentiment_row_eq_dec : EqDecision market_sentiment.row.
Proof. solve_decision. Defined.
Global Instance trades_df_row_eq_dec : EqDecision trades_df.row.
Proof. solve_decision. Defined.
Global Instance agent_perf_row_eq_dec : EqDecision agent_perf.row.
Proof. solve_decision. Defined.
Global Instance equity_row_eq_dec : EqDecision equity.row.
Proof. solve_decision. Defined.

(** ** SQL building blocks *)

(** [SUM] over a list of non-null reals. *)
Definition qsum (l : list Qc) : Qc := foldr Qcplus 0%Qc l.

(** [ORDER BY timestamp] and [ORDER BY timestamp DESC]. *)
Definition ts_asc {A} (ts : A → Z) (a b : A) : Prop := ts a ≤ ts b.
Definition ts_desc {A} (ts : A → Z) (a b : A) : Prop := ts b ≤ ts a.

Global Instance ts_asc_dec {A} (ts : A → Z) : RelDecision (ts_asc ts) :=
  λ a b, decide (ts a ≤ ts b).
Global Instance ts_desc_dec {A} (ts : A → Z) : RelDecision (ts_desc ts) :=
  λ a b, decide (ts b ≤ ts a).

(** Text in ascending order (byte by byte), a NULL before any text: the
    order of SQLite on a TEXT column. *)
Definition name_le (a b : option string) : Prop :=
  match a, b with
  | None, _ => True
  | Some _, None => False
  | Some x, Some y => String.leb x y = true
  end.

Global Instance name_le_dec : RelDecision name_le.
Proof. intros [x|] [y|]; simpl; apply _. Defined.

(** [WHERE profit IS NOT NULL], keeping each row with its profit. *)
Definition closed (tbl : list trades.row) : list (trades.row * Qc) :=
  omap (λ r, pair r <$> trades.profit r) tbl.

(** ** The four queries *)

Definition select_trade (r : trades.row) : trades_df.row :=
  trades_df.mk (trades.id r) (trades.timestamp r) (trades.symbol r)
    (trades.action r) (trades.entry r) (trades.sl r) (trades.tp r)
    (trades.exit_price r) (trades.profit r) (trades.reason r)
    (trades.agent_name r) (trades.confidence r).

(** SELECT id, ..., confidence FROM trades ORDER BY timestamp DESC LIMIT 100 *)
Definition sql_load_trades (tbl : list trades.row) : list trades_df.row :=
  take 100 (merge_sort (ts_desc trades_df.timestamp) (select_trade <$> tbl)).

(** The running state of the aggregates of one group. *)
Record agg := mk_agg {
  count_star : Z;        (* COUNT( * ) *)
  sum_wins : Z;          (* SUM(CASE WHEN profit > 0 THEN 1 ELSE 0 END) *)
  sum_profit : Qc;       (* SUM(profit); AVG(profit) = sum / count *)
  sum_confidence : Qc;   (* AVG(confidence): sum over non-null values ... *)
  count_confidence : Z   (* ... and their number *) }.

Definition agg_init : agg := mk_agg 0 0 0%Qc 0%Qc 0.

Definition agg_step (a : agg) (rp : trades.row * Qc) : agg :=
  mk_agg
    (count_star a + 1)
    (sum_wins a + (if bool_decide (0 < rp.2)%Qc then 1 else 0))
    (sum_profit a + rp.2)%Qc
    (match trades.confidence rp.1 with
     | Some c => (sum_confidence a + c)%Qc
     | None => sum_confidence a
     end)
    (match trades.confidence rp.1 with
     | Some _ => count_confidence a + 1
     | None => count_confidence a
     end).

(** GROUP BY agent_name: every row is folded into the state of its group. *)
Definition group_by_agent (rows : list (trades.row * Qc))
  : gmap (option string) agg :=
  foldl (λ m rp,
           partial_alter (λ o, Some (agg_step (default agg_init o) rp))
             (trades.agent_name rp.1) m)
        ∅ rows.

Definition agg_final (ka : option string * agg) : agent_perf.row :=
  agent_perf.mk ka.1
    (count_star ka.2)
    (sum_wins ka.2)
    (sum_profit ka.2)
    (sum_profit ka.2 / Qc_of_Z (count_star ka.2))%Qc
    (if decide (count_confidence ka.2 = 0) then None
     else Some (sum_confidence ka.2 / Qc_of_Z (count_confidence ka.2))%Qc).

(** The order the groups are returned in: by their key. *)
Definition by_agent_name (x y : option string * agg) : Prop :=
  name_le x.1 y.1.

Global Instance by_agent_name_dec : RelDecision by_agent_name :=
  λ x y, decide (name_le x.1 y.1).

(** SELECT agent_name, COUNT( * ), SUM(CASE ...), SUM(profit), AVG(profit),
    AVG(confidence) FROM trades WHERE profit IS NOT NULL GROUP BY agent_name *)
Definition sql_agent_performance (tbl : list trades.row)
  : list agent_perf.row :=
  agg_final
  <$> merge_sort by_agent_name (map_to_list (group_by_agent (closed tbl))).

(** SELECT ... FROM market_sentiment ORDER BY timestamp DESC LIMIT 50 *)
Definition sql_sentiment_history (tbl : list market_sentiment.row)
  : list market_sentiment.row :=
  take 50 (merge_sort (ts_desc market_sentiment.timestamp) tbl).

(** The timestamp of a closed trade. *)
Definition closed_timestamp (rp : trades.row * Qc) : Z :=
  trades.timestamp rp.1.

(** The frame of [SUM(profit) OVER (ORDER BY timestamp)] at a row: with an
    ORDER BY and no frame clause the frame is RANGE BETWEEN UNBOUNDED
    PRECEDING AND CURRENT ROW, that is every row of the partition that
    sorts no later than the current row, its peers included. *)
Definition window_frame (rows : list (trades.row * Qc)) (cur : trades.row * Qc)
  : list (trades.row * Qc) :=
  filter (λ rp, closed_timestamp rp ≤ closed_timestamp cur) rows.

(** One output row: the timestamp and the window sum at the current row. *)
Definition equity_point (rows : list (trades.row * Qc))
    (cur : trades.row * Qc) : equity.row :=
  equity.mk (closed_timestamp cur) (qsum (window_frame rows cur).*2).

(** SELECT timestamp, SUM(profit) OVER (ORDER BY timestamp)
    FROM trades WHERE profit IS NOT NULL ORDER BY timestamp *)
Definition sql_equity_curve (tbl : list trades.row) : list equity.row :=
  let rows := merge_sort (ts_asc closed_timestamp) (closed tbl) in
  equity_point rows <$> rows.

(** ** Running a query: errors and the cache *)

Inductive exn :=
  | DatabaseError       (* raised by pd.read_sql_query when the query fails *)
  | ZeroDivisionError
  | TypeError.          (* None compared with a number, or formatted as one *)

Inductive result (A : Type) :=
  | Ok (a : A)
  | Raise (e : exn).
Arguments Ok {A} a.
Arguments Raise {A} e.

(** What the connection [conn] reaches.  A table that cannot be read (the
    file holds no such table, or is locked or damaged) is [None]. *)
Record database := mk_database {
  trades_table : option (list trades.row);
  sentiment_table : option (list market_sentiment.row) }.

(** [pd.read_sql_query(query, conn)] *)
Definition read_sql_query {A B} (query : list A → B) (tbl : option (list A))
  : result B :=
  match tbl with
  | Some rows => Ok (query rows)
  | None => Raise DatabaseError
  end.

(** An entry of [st.cache_data]: a value and the time it was computed.
    Streamlit hands out a copy of the value, so later assignments to the
    frame a caller received do not reach the entry. *)
Record entry (A : Type) := mk_entry { value : A; computed_at : Z }.
Arguments mk_entry {A} value computed_at.
Arguments value {A} e.
Arguments computed_at {A} e.

(** [@st.cache_data(ttl=...)] around a function without arguments: a fresh
    entry answers the call; otherwise the function runs, and its value is
    stored unless it raised. *)
Definition cache_data {A} (ttl now : Z) (slot : option (entry A))
    (run : result A) : result A * option (entry A) :=
  match slot with
  | Some e =>
      if decide (now - computed_at e < ttl) then (Ok (value e), slot)
      else match run with
           | Ok v => (Ok v, Some (mk_entry v now))
           | Raise x => (Raise x, None)
           end
  | None =>
      match run with
      | Ok v => (Ok v, Some (mk_entry v now))
      | Raise x => (Raise x, None)
      end
  end.

Record cache := mk_cache {
  trades_entry : option (entry (list trades_df.row));
  perf_entry : option (entry (list agent_perf.row));
  sentiment_entry : option (entry (list market_sentiment.row)) }.

Definition cache_empty : cache := mk_cache None None None.

(** Code that may raise and may touch the cache. *)
Definition M (A : Type) : Type := cache → result A * cache.

Global Instance M_ret : MRet M := λ A a c, (Ok a, c).
Global Instance M_bind : MBind M := λ A B f m c,
  match m c with
  | (Ok a, c') => f a c'
  | (Raise x, c') => (Raise x, c')
  end.

Definition lift {A} (r : result A) : M A := λ c, (r, c).

(** ** The four operations *)

Definition load_trades (db : database) (now : Z) : M (list trades_df.row) :=
  λ c,
    let out := cache_data 10 now (trades_entry c)
                 (read_sql_query sql_load_trades (trades_table db)) in
    (out.1, mk_cache out.2 (perf_entry c) (sentiment_entry c)).

Definition load_agent_performance (db : database) (now : Z)
  : M (list agent_perf.row) :=
  λ c,
    let out := cache_data 60 now (perf_entry c)
                 (read_sql_query sql_agent_performance (trades_table db)) in
    (out.1, mk_cache (trades_entry c) out.2 (sentiment_entry c)).

Definition load_sentiment_history (db : database) (now : Z)
  : M (list market_sentiment.row) :=
  λ c,
    let out := cache_data 300 now (sentiment_entry c)
                 (read_sql_query sql_sentiment_history (sentiment_table db)) in
    (out.1, mk_cache (trades_entry c) (perf_entry c) out.2).

(** [get_equity_curve] carries no cache decorator. *)
Definition get_equity_curve (db : database) : M (list equity.row) :=
  lift (read_sql_query sql_equity_curve (trades_table db)).

(** ** The page: what the script hands to Streamlit

    Of the formatting only what can raise is kept: a metric keeps the number
    that is formatted, a chart the points that are plotted, the trade table
    the rows that are shown, the title of an expander the four cells it is
    made of.  The styles of the profit cells and the formatted confidences
    of the titles are computed, since either can raise, and are not part of
    the page.  Rounding to two decimals is float arithmetic and is left
    out. *)

Inductive metric :=
  | MetricCount (n : Z)              (* st.metric(label, total_trades) *)
  | MetricRupiah (v : Qc)            (* the text Rp{v:,.0f} *)
  | MetricPercent (v : Qc)           (* the text {v:.1f}% *)
  | MetricSignal (s : option string) (* the latest sentiment signal *)
  | MetricText (s : string).         (* a literal text *)

(** A region of the page: its content, or the note of [st.info]. *)
Inductive panel (A : Type) :=
  | Shown (a : A)
  | Info (msg : string).
Arguments Shown {A} a.
Arguments Info {A} msg.

(** A float64 of a pandas column. *)
Inductive float :=
  | Finite (q : Qc)
  | PosInf
  | NegInf
  | NaN.

(** [a / b] on integer columns: pandas answers inf or NaN where b is 0. *)
Definition series_truediv (a b : Z) : float :=
  if decide (b = 0) then
    if decide (a = 0) then NaN
    else if decide (0 < a) then PosInf else NegInf
  else Finite (Qc_of_Z a / Qc_of_Z b)%Qc.

Definition series_times_100 (x : float) : float :=
  match x with
  | Finite q => Finite (q * Qc_of_Z 100)%Qc
  | other => other
  end.

(** [.fillna(0)] on a float column. *)
Definition fillna_0 (x : float) : float :=
  match x with NaN => Finite 0%Qc | other => other end.

(** Python's [a / b]. *)
Definition truediv (a b : Qc) : result Qc :=
  if decide (b = 0%Qc) then Raise ZeroDivisionError else Ok (a / b)%Qc.

Record leader_row := mk_leader_row {
  perf : agent_perf.row;
  win_rate : float }.

(** agent_perf['win_rate'] = (wins / total_trades * 100).fillna(0) *)
Definition add_win_rate (r : agent_perf.row) : leader_row :=
  mk_leader_row r
    (fillna_0 (series_times_100
       (series_truediv (agent_perf.wins r) (agent_perf.total_trades r)))).

(** The key of [sort_values('total_profit', ascending=False)]. *)
Definition total_profit_desc (a b : leader_row) : Prop :=
  (agent_perf.total_profit (perf b) ≤ agent_perf.total_profit (perf a))%Qc.

Global Instance total_profit_desc_dec : RelDecision total_profit_desc :=
  λ a b, decide (agent_perf.total_profit (perf b)
                 ≤ agent_perf.total_profit (perf a))%Qc.

(** The leaderboard: the win-rate column is added, then the frame is sorted
    on the single key total_profit, largest first.  The sort is not stable:
    neither here nor in pandas (whose default is numpy's quicksort) do rows
    of equal total profit keep the order they arrive in. *)
Definition leaderboard (agent_perf : list agent_perf.row) : list leader_row :=
  merge_sort total_profit_desc (add_win_rate <$> agent_perf).

(** signal_map = {'BULLISH': 1, 'NEUTRAL': 0, 'BEARISH': -1} *)
Definition signal_map : gmap string Z :=
  {[ "BULLISH" := 1; "NEUTRAL" := 0; "BEARISH" := -1 ]}.

(** One value of [sentiment_df['sentiment_signal'].map(signal_map)]: a
    missing signal and a signal that is no key of the dict both give NaN. *)
Definition series_map_signal (s : option string) : option Z :=
  s ≫= (λ k, signal_map !! k).

(** [.map(signal_map).fillna(0)] *)
Definition signal_value (s : option string) : Z :=
  default 0 (series_map_signal s).

(** total_trades = len(trades_df[trades_df['action'].isin(['BUY', 'SELL'])]) *)
Definition is_buy_or_sell (r : trades_df.row) : bool :=
  bool_decide (trades_df.action r ∈ [Some "BUY"; Some "SELL"]).

Definition count_total_trades (trades_df : list trades_df.row) : Z :=
  Z.of_nat (length (filter is_buy_or_sell trades_df)).

(** trades_df['profit'].sum(): NaN cells are skipped. *)
Definition sum_profit_column (trades_df : list trades_df.row) : Qc :=
  qsum (omap trades_df.profit trades_df).

Definition total_profit_metric_of (trades_df : list trades_df.row) : metric :=
  match trades_df with
  | [] => MetricText "Rp0"
  | _ => MetricRupiah (sum_profit_column trades_df)
  end.

(** agent_perf['wins'].sum() *)
Definition count_total_wins (agent_perf : list agent_perf.row) : Z :=
  foldr Z.add 0 (agent_perf.wins <$> agent_perf).

(** win_rate = (total_wins / total_trades * 100) if total_trades > 0 else 0 *)
Definition headline_win_rate (total_wins total_trades : Z) : result Qc :=
  if decide (0 < total_trades) then
    match truediv (Qc_of_Z total_wins) (Qc_of_Z total_trades) with
    | Ok q => Ok (q * Qc_of_Z 100)%Qc
    | Raise x => Raise x
    end
  else Ok 0%Qc.

Definition win_rate_metric_of (agent_perf : list agent_perf.row)
    (total_trades : Z) : result metric :=
  match agent_perf with
  | [] => Ok (MetricText "0%")
  | _ =>
      match headline_win_rate (count_total_wins agent_perf) total_trades with
      | Ok q => Ok (MetricPercent q)
      | Raise x => Raise x
      end
  end.

Definition sentiment_metric_of (sentiment_df : list market_sentiment.row)
  : metric :=
  match sentiment_df with
  | [] => MetricText "N/A"
  | latest :: _ => MetricSignal (market_sentiment.sentiment_signal latest)
  end.

(** The number a headline metric displays. *)
Definition metric_number (m : metric) : option Qc :=
  match m with
  | MetricCount n => Some (Qc_of_Z n)
  | MetricRupiah v => Some v
  | MetricPercent v => Some v
  | MetricText "Rp0" => Some 0%Qc
  | MetricText "0%" => Some 0%Qc
  | _ => None
  end.

(** ** Panels *)

Definition equity_panel_of (equity_df : list equity.row)
  : panel (list equity.row) :=
  match equity_df with
  | [] => Info "Belum ada data equity"
  | _ => Shown equity_df
  end.

Definition leaderboard_panel_of (agent_perf : list agent_perf.row)
  : panel (list leader_row) :=
  match agent_perf with
  | [] => Info "Belum ada data performa agent"
  | _ => Shown (leaderboard agent_perf)
  end.

(** sentiment_df = sentiment_df.sort_values('timestamp') *)
Definition chronological (sentiment_df : list market_sentiment.row)
  : list market_sentiment.row :=
  merge_sort (ts_asc market_sentiment.timestamp) sentiment_df.

Definition sentiment_score_panel_of (sentiment_df : list market_sentiment.row)
  : panel (list (Z * option Qc)) :=
  match sentiment_df with
  | [] => Info "Belum ada data sentimen"
  | _ =>
      Shown ((λ r, (market_sentiment.timestamp r,
                    market_sentiment.sentiment_score r))
             <$> chronological sentiment_df)
  end.

(** The column [signal_value] plotted against the timestamps. *)
Definition signal_series (sentiment_df : list market_sentiment.row)
  : list (Z * Z) :=
  (λ r, (market_sentiment.timestamp r,
         signal_value (market_sentiment.sentiment_signal r)))
  <$> chronological sentiment_df.

Definition sentiment_signal_panel_of (sentiment_df : list market_sentiment.row)
  : panel (list (Z * Z)) :=
  match sentiment_df with
  | [] => Info "Belum ada data signal"
  | _ => Shown (signal_series sentiment_df)
  end.

(** The agent filter of the sidebar; 'Semua' stands for every agent. *)
Definition filter_trades (selected_agent : string)
    (trades_df : list trades_df.row) : list trades_df.row :=
  if decide (selected_agent ≠ "Semua") then
    filter (λ r, trades_df.agent_name r = Some selected_agent) trades_df
  else trades_df.

(** The rows of the trade table, once [st_dataframe] has styled them. *)
Definition trade_history_panel_of (filtered_trades : list trades_df.row)
  : panel (list trades_df.row) :=
  match filtered_trades with
  | [] => Info "Belum ada data trade"
  | _ => Shown filtered_trades
  end.

(** ** Cells of a REAL column of the loaded frame *)

Inductive real_cell :=
  | PyNone             (* a cell of an object column *)
  | PyNaN              (* a NULL in a float64 column *)
  | PyFloat (q : Qc).

(** Whether every loaded row is NULL in a column: the column is then an
    object column. *)
Definition all_null (col : trades_df.row → option Qc)
    (trades_df : list trades_df.row) : bool :=
  forallb (λ r, bool_decide (col r = None)) trades_df.

(** The cell of a row in a column of [trades_df]; a filtered frame and a
    copy keep the column's type. *)
Definition real_cell_of (col : trades_df.row → option Qc)
    (trades_df : list trades_df.row) (r : trades_df.row) : real_cell :=
  match col r with
  | Some q => PyFloat q
  | None => if all_null col trades_df then PyNone else PyNaN
  end.

(** Rounding to an integer as numpy's rint does it: to the nearest one, and
    a half to the even neighbour. *)
Definition round_half_even (q : Qc) : Z :=
  let f := Qfloor q in
  match (q - Qc_of_Z f ?= Q2Qc (1 # 2))%Qc with
  | Lt => f
  | Gt => f + 1
  | Eq => if Z.even f then f else f + 1
  end.

(** One cell of [display_df['profit'].round(0)]: a float is rounded, NaN
    stays NaN, and an object column is left as it is. *)
Definition round_0 (c : real_cell) : real_cell :=
  match c with
  | PyFloat q => PyFloat (Qc_of_Z (round_half_even q))
  | other => other
  end.

(** color_profit(val): every comparison with NaN is false, and the first
    comparison with None raises. *)
Definition color_profit (val : real_cell) : result string :=
  match val with
  | PyFloat v =>
      Ok (if decide (0 < v)%Qc then "color: green"
          else if decide (v < 0)%Qc then "color: red"
          else "color: black")
  | PyNaN => Ok "color: black"
  | PyNone => Raise TypeError
  end.

(** A function applied to the cells of a column, one after the other. *)
Fixpoint applymap {A B} (f : A → result B) (l : list A) : result (list B) :=
  match l with
  | [] => Ok []
  | x :: rest =>
      match f x with
      | Raise e => Raise e
      | Ok y =>
          match applymap f rest with
          | Raise e => Raise e
          | Ok ys => Ok (y :: ys)
          end
      end
  end.

(** The style of the profit cell of a row of [display_df]. *)
Definition profit_style (trades_df : list trades_df.row) (r : trades_df.row)
  : result string :=
  color_profit (round_0 (real_cell_of trades_df.profit trades_df r)).

(** st.dataframe(display_df.style.applymap(color_profit, subset=['profit']))
    computes the style of every profit cell of the filtered trades. *)
Definition st_dataframe (trades_df filtered_trades : list trades_df.row)
  : result (list string) :=
  applymap (profit_style trades_df) filtered_trades.

(** The format [:.2f] of the expander title: a float has it (NaN reads
    nan), None does not. *)
Definition format_2f (c : real_cell) : result real_cell :=
  match c with
  | PyNone => Raise TypeError
  | other => Ok other
  end.

(** The confidences formatted for the titles of filtered_trades.head(5). *)
Definition expander_titles (trades_df filtered_trades : list trades_df.row)
  : result (list real_cell) :=
  applymap (λ r, format_2f (real_cell_of trades_df.confidence trades_df r))
    (take 5 filtered_trades).

(** What [st.write] puts inside an expander of the decision log. *)
Inductive line :=
  | ReasonLine (c : cell)
  | ReflectionLine (c : cell).

Record expander := mk_expander {
  title_timestamp : Z;
  title_action : option string;
  title_agent_name : option string;
  title_confidence : option Qc;
  body : list line }.

(** The body of the loop over filtered_trades.head(5), for a row whose
    title could be formatted ([expander_titles]):
      st.write(Reason: row.get('reason', 'No reason provided'))
      if pd.notna(row.get('reflection')): st.write(Reflection: row['reflection']) *)
Definition decision_log (r : trades_df.row) : expander :=
  mk_expander
    (trades_df.timestamp r) (trades_df.action r)
    (trades_df.agent_name r) (trades_df.confidence r)
    (ReasonLine (trades_df.get "reason" (CText "No reason provided") r)
     :: (if notna (trades_df.get "reflection" CNull r)
         then [ReflectionLine (trades_df.get "reflection" CNull r)]
         else [])).

Definition decision_logs_panel_of (filtered_trades : list trades_df.row)
  : panel (list expander) :=
  match filtered_trades with
  | [] => Info "Belum ada decision logs"
  | _ => Shown (decision_log <$> take 5 filtered_trades)
  end.

Record page := mk_page {
  agent_options : list string;
  total_trades_metric : metric;
  total_profit_metric : metric;
  win_rate_metric : metric;
  sentiment_metric : metric;
  equity_panel : panel (list equity.row);
  leaderboard_panel : panel (list leader_row);
  sentiment_score_panel : panel (list (Z * option Qc));
  sentiment_signal_panel : panel (list (Z * Z));
  trade_history_panel : panel (list trades_df.row);
  decision_logs_panel : panel (list expander) }.

(** Everything below "Load data": the four frames become the page, unless
    the trade table (line 301) or a title of the decision log (line 317)
    raises. *)
Definition render (options : list string) (selected_agent : string)
    (trades_df : list trades_df.row) (agent_perf : list agent_perf.row)
    (sentiment_df : list market_sentiment.row) (equity_df : list equity.row)
  : result page :=
  let total_trades := count_total_trades trades_df in
  match win_rate_metric_of agent_perf total_trades with
  | Raise x => Raise x
  | Ok wr =>
      let filtered_trades := filter_trades selected_agent trades_df in
      match st_dataframe trades_df filtered_trades with
      | Raise x => Raise x
      | Ok _ =>
          match expander_titles trades_df filtered_trades with
          | Raise x => Raise x
          | Ok _ =>
              Ok (mk_page options
                    (MetricCount total_trades)
                    (total_profit_metric_of trades_df)
                    wr
                    (sentiment_metric_of sentiment_df)
                    (equity_panel_of equity_df)
                    (leaderboard_panel_of agent_perf)
                    (sentiment_score_panel_of sentiment_df)
                    (sentiment_signal_panel_of sentiment_df)
                    (trade_history_panel_of filtered_trades)
                    (decision_logs_panel_of filtered_trades))
          end
      end
  end.

(** SELECT DISTINCT agent_name FROM trades WHERE agent_name IS NOT NULL *)
Definition sql_agent_list (tbl : list trades.row) : list string :=
  remove_dups (omap trades.agent_name tbl).

(** How one run of the script ends when nothing is raised: [st.rerun()]
    stops it at the sidebar, or the page is complete. *)
Inductive outcome :=
  | Rerun
  | Rendered (p : page).

(** One run of dashboard.py.  [auto_refresh] and [selected_agent] are the
    values of the two sidebar widgets. *)
Definition dashboard (db : database) (auto_refresh : bool)
    (selected_agent : string) (now : Z) : M outcome :=
  if auto_refresh then mret Rerun
  else
    agent_list ← lift (read_sql_query sql_agent_list (trades_table db));
    trades_df ← load_trades db now;
    agent_perf ← load_agent_performance db now;
    sentiment_df ← load_sentiment_history db now;
    equity_df ← get_equity_curve db;
    p ← lift (render ("Semua" :: agent_list) selected_agent
                trades_df agent_perf sentiment_df equity_df);
    mret (Rendered p).

Global Instance exn_eq_dec : EqDecision exn.
Proof. solve_decision. Defined.
Global Instance result_eq_dec {A} `{EqDecision A} : EqDecision (result A).
Proof. solve_decision. Defined.
Global Instance metric_eq_dec : EqDecision metric.
Proof. solve_decision. Defined.
Global Instance panel_eq_dec {A} `{EqDecision A} : EqDecision (panel A).
Proof. solve_decision. Defined.
Global Instance float_eq_dec : EqDecision float.
Proof. solve_decision. Defined.
Global Instance leader_row_eq_dec : EqDecision leader_row.
Proof. solve_decision. Defined.
Global Instance line_eq_dec : EqDecision line.
Proof. solve_decision. Defined.
Global Instance expander_eq_dec : EqDecision expander.
Proof. solve_decision. Defined.
Global Instance real_cell_eq_dec : EqDecision real_cell.
Proof. solve_decision. Defined.

(** * Vocabulary of the statements

    What the specification's words mean on the embedding, and the sample
    stores the statements are tried on. *)

(** ** The signal axis *)

(** The lookup table of the specification: BULLISH is +1, BEARISH is -1,
    NEUTRAL and everything else, a missing signal included, is 0. *)
Definition signal_axis (s : option string) : Z :=
  if decide (s = Some "BULLISH") then 1
  else if decide (s = Some "BEARISH") then -1
  else 0.

(** ** Sample trades *)

(** A closed trade with every price and the confidence set. *)
Definition closed_trade (id timestamp : Z) (action agent_name : string)
    (profit : Z) : trades.row :=
  trades.mk id timestamp (Some "BTCUSDT") (Some action)
    (Some (Qc_of_Z 100)) (Some (Qc_of_Z 95)) (Some (Qc_of_Z 110))
    (Some (Qc_of_Z 105)) (Some (Qc_of_Z profit))
    (Some "signal") None (Some agent_name) (Some (Q2Qc (4 # 5))).

(** A history of [n] closed, winning BUY trades of one agent, one per
    instant. *)
Definition winning_trade (i : Z) : trades.row :=
  closed_trade i i "BUY" "Alpha" 1.

Definition winning_history (n : nat) : list trades.row :=
  winning_trade <$> seqZ 1 (Z.of_nat n).

(** ** The decision log *)

(** A stored trade whose reflection is set. *)
Definition reflected_trade : trades.row :=
  trades.mk 1 1 (Some "BTCUSDT") (Some "BUY")
    (Some (Qc_of_Z 100)) (Some (Qc_of_Z 95)) (Some (Qc_of_Z 110))
    (Some (Qc_of_Z 105)) (Some (Qc_of_Z 5))
    (Some "breakout above resistance") (Some "entered too early")
    (Some "Alpha") (Some (Q2Qc (4 # 5))).

(** ** The four operations as one interface *)

Inductive operation :=
  | RecentTrades
  | AgentPerformance
  | SentimentHistory
  | EquityCurve.

Inductive frame :=
  | TradesFrame (rows : list trades_df.row)
  | PerfFrame (rows : list agent_perf.row)
  | SentimentFrame (rows : list market_sentiment.row)
  | EquityFrame (rows : list equity.row).

Global Instance operation_eq_dec : EqDecision operation.
Proof. solve_decision. Defined.
Global Instance frame_eq_dec : EqDecision frame.
Proof. solve_decision. Defined.

Definition result_map {A B} (f : A → B) (r : result A) : result B :=
  match r with Ok a => Ok (f a) | Raise x => Raise x end.

(** What an operation reads from the store: its query, run now. *)
Definition query (db : database) (op : operation) : result frame :=
  match op with
  | RecentTrades =>
      result_map TradesFrame (read_sql_query sql_load_trades (trades_table db))
  | AgentPerformance =>
      result_map PerfFrame
        (read_sql_query sql_agent_performance (trades_table db))
  | SentimentHistory =>
      result_map SentimentFrame
        (read_sql_query sql_sentiment_history (sentiment_table db))
  | EquityCurve =>
      result_map EquityFrame
        (read_sql_query sql_equity_curve (trades_table db))
  end.

(** A call of the Python function of an operation at time [now]. *)
Definition invoke (db : database) (op : operation) (now : Z) : M frame :=
  λ c,
    match op with
    | RecentTrades =>
        let out := load_trades db now c in (result_map TradesFrame out.1, out.2)
    | AgentPerformance =>
        let out := load_agent_performance db now c in
        (result_map PerfFrame out.1, out.2)
    | SentimentHistory =>
        let out := load_sentiment_history db now c in
        (result_map SentimentFrame out.1, out.2)
    | EquityCurve =>
        let out := get_equity_curve db c in (result_map EquityFrame out.1, out.2)
    end.

(** The cache after a sequence of calls, each at its own time. *)
Definition run_calls (db : database) (calls : list (operation * Z))
    (c : cache) : cache :=
  foldl (λ c' call, (invoke db call.1 call.2 c').2) c calls.

(** An entry agrees with the store when it holds what the query returns. *)
Definition slot_coherent {A} (slot : option (entry A)) (run : result A)
  : Prop :=
  ∀ e, slot = Some e → run = Ok (value e).

Definition coherent (db : database) (c : cache) : Prop :=
  slot_coherent (trades_entry c)
    (read_sql_query sql_load_trades (trades_table db))
  ∧ slot_coherent (perf_entry c)
      (read_sql_query sql_agent_performance (trades_table db))
  ∧ slot_coherent (sentiment_entry c)
      (read_sql_query sql_sentiment_history (sentiment_table db)).

(** What the cache of an operation holds at time [now]: the value of an
    entry younger than the operation's time to live, if there is one. *)
Definition fresh {A} (ttl now : Z) (slot : option (entry A)) : option A :=
  match slot with
  | Some e => if decide (now - computed_at e < ttl) then Some (value e) else None
  | None => None
  end.

Definition cached_frame (op : operation) (now : Z) (c : cache)
  : option frame :=
  match op with
  | RecentTrades => TradesFrame <$> fresh 10 now (trades_entry c)
  | AgentPerformance => PerfFrame <$> fresh 60 now (perf_entry c)
  | SentimentHistory => SentimentFrame <$> fresh 300 now (sentiment_entry c)
  | EquityCurve => None
  end.

(** ** Failing queries *)

(** What a cached operation answers when its query fails: a value the cache
    computed less than [ttl] ago, or else the error of the query. *)
Definition cached_or_raise {A} (ttl now : Z) (slot : option (entry A))
  : result A :=
  match slot with
  | Some e =>
      if decide (now - computed_at e < ttl) then Ok (value e)
      else Raise DatabaseError
  | None => Raise DatabaseError
  end.

(** A connection behind which no table can be read. *)
Definition unreachable_store : database := mk_database None None.

(** ** An empty trades table *)

Definition one_reading : market_sentiment.row :=
  market_sentiment.mk 1 (Some (Qc_of_Z 60)) (Some "BULLISH") None None.

(** No trade yet, one sentiment reading. *)
Definition store_without_trades : database :=
  mk_database (Some []) (Some [one_reading]).

(** ** Agent performance *)

(** The closed trades of an agent, read off the table itself: the stored
    rows that carry the agent's name and a profit. *)
Definition agent_closed_trades (a : option string) (tbl : list trades.row)
  : list trades.row :=
  filter (λ r, trades.agent_name r = a ∧ is_Some (trades.profit r)) tbl.

(** The mean of a list of numbers; none for an empty list. *)
Definition mean (l : list Qc) : option Qc :=
  match l with
  | [] => None
  | _ => Some (foldr Qcplus 0%Qc l / Qc_of_Z (Z.of_nat (length l)))%Qc
  end.

(** The row the specification gives an agent: the number of its closed
    trades, how many of them have a profit above 0, the sum and the mean of
    their profits, and the mean of their confidences that are set. *)
Definition performance_row (a : option string) (tbl : list trades.row)
  : agent_perf.row :=
  let mine := agent_closed_trades a tbl in
  let profits := omap trades.profit mine in
  agent_perf.mk a
    (Z.of_nat (length mine))
    (Z.of_nat (length (filter (λ p, (0 < p)%Qc) profits)))
    (foldr Qcplus 0%Qc profits)
    (foldr Qcplus 0%Qc profits / Qc_of_Z (Z.of_nat (length mine)))%Qc
    (mean (omap trades.confidence mine)).

(** An open trade, and a closed trade without a confidence. *)
Definition open_trade (id timestamp : Z) (agent_name : string) : trades.row :=
  trades.mk id timestamp (Some "BTCUSDT") (Some "BUY")
    (Some (Qc_of_Z 100)) (Some (Qc_of_Z 95)) (Some (Qc_of_Z 110))
    None None (Some "signal") None (Some agent_name) (Some (Q2Qc (9 # 10))).

Definition unrated_trade (id timestamp : Z) (agent_name : string)
    (profit : Z) : trades.row :=
  trades.mk id timestamp (Some "BTCUSDT") (Some "SELL")
    (Some (Qc_of_Z 100)) (Some (Qc_of_Z 95)) (Some (Qc_of_Z 110))
    (Some (Qc_of_Z 105)) (Some (Qc_of_Z profit))
    (Some "signal") None (Some agent_name) None.

(** A closes at 100 and at 0 and holds an open trade; B closes at -40
    without a confidence and at 50; C holds an open trade only. *)
Definition mixed_trades : list trades.row :=
  [ closed_trade 1 1 "BUY" "A" 100;
    unrated_trade 2 2 "B" (-40);
    closed_trade 3 3 "SELL" "A" 0;
    open_trade 4 4 "A";
    open_trade 5 5 "C";
    closed_trade 6 6 "BUY" "B" 50 ].

(** The same through the WHERE clause of the query: the closed trades of one
    agent, each with its profit. *)
Definition closed_trades_of (a : option string) (tbl : list trades.row)
  : list (trades.row * Qc) :=
  filter (λ rp, trades.agent_name rp.1 = a) (closed tbl).

(** The figures of an agent over these pairs. *)
Definition agent_figures (a : option string) (tbl : list trades.row)
  : agent_perf.row :=
  let mine := closed_trades_of a tbl in
  agent_perf.mk a
    (Z.of_nat (length mine))
    (Z.of_nat (length (filter (λ rp, (0 < rp.2)%Qc) mine)))
    (qsum mine.*2)
    (qsum mine.*2 / Qc_of_Z (Z.of_nat (length mine)))%Qc
    (mean (omap (λ rp, trades.confidence rp.1) mine)).

(** The scenario of the specification: A closes at 100 and -40, B at 50. *)
Definition scenario_trades : list trades.row :=
  [ closed_trade 1 1 "BUY" "A" 100;
    closed_trade 2 2 "SELL" "A" (-40);
    closed_trade 3 3 "BUY" "B" 50 ].

(** ** The equity curve *)

(** The prefix-sum law of the specification, read as a scan: the first
    point holds the first profit, every further point the value before it
    plus its own profit. *)
Fixpoint running_total (acc : Qc) (rows : list (trades.row * Qc))
  : list equity.row :=
  match rows with
  | [] => []
  | rp :: rest =>
      equity.mk (closed_timestamp rp) (acc + rp.2)%Qc
      :: running_total (acc + rp.2)%Qc rest
  end.

(** Two closed trades at one instant. *)
Definition tied_first : trades.row := closed_trade 1 1 "BUY" "Alpha" 10.

Definition tied_second : trades.row := closed_trade 2 1 "SELL" "Beta" 5.

Definition tied_trades : list trades.row := [tied_first; tied_second].

(** Three closed trades at three instants, profits 10, -5 and 20. *)
Definition three_trades : list trades.row :=
  [ closed_trade 1 1 "BUY" "Alpha" 10;
    closed_trade 2 2 "SELL" "Alpha" (-5);
    closed_trade 3 3 "BUY" "Beta" 20 ].

(** ** The leaderboard *)

(** The tie rule of the specification: of two agents with the same total
    profit the one with the smaller name is ranked first. *)
Definition ties_by_name (l : list leader_row) : Prop :=
  ∀ (i j : nat) (ri rj : leader_row),
    (i < j)%nat → l !! i = Some ri → l !! j = Some rj →
    agent_perf.total_profit (perf ri) = agent_perf.total_profit (perf rj) →
    name_le (agent_perf.agent_name (perf ri)) (agent_perf.agent_name (perf rj)).

(** Twenty agents with one closed trade each; the profits alternate
    between 10 and 20. *)
Definition twenty_names : list string :=
  [ "Ag01"; "Ag02"; "Ag03"; "Ag04"; "Ag05"; "Ag06"; "Ag07"; "Ag08"; "Ag09";
    "Ag10"; "Ag11"; "Ag12"; "Ag13"; "Ag14"; "Ag15"; "Ag16"; "Ag17"; "Ag18";
    "Ag19"; "Ag20" ].

Definition twenty_agents : list trades.row :=
  imap (λ i name,
          closed_trade (Z.of_nat (S i)) (Z.of_nat (S i)) "BUY" name
            (if Nat.even i then 10 else 20))
       twenty_names.

(** Two readings, the later one bullish. *)
Definition two_readings : list market_sentiment.row :=
  [ market_sentiment.mk 1 (Some (Qc_of_Z 40)) (Some "BEARISH") None None;
    market_sentiment.mk 2 (Some (Qc_of_Z 60)) (Some "BULLISH") None None ].

(** ** The headline win rate *)

(** A stored trade that was won: closed with a profit above 0. *)
Definition is_win (r : trades.row) : bool :=
  match trades.profit r with
  | Some p => bool_decide (0 < p)%Qc
  | None => false
  end.

(** ** A store that changes *)

(** The store before and after the third trade is written. *)
Definition earlier_store : database :=
  mk_database (Some (take 2 three_trades)) (Some two_readings).

Definition later_store : database :=
  mk_database (Some three_trades) (Some two_readings).

(** ** The trade table *)

(** Loaded trades of which none is closed yet, and loaded trades of which
    one is. *)
Definition open_trades_only : list trades_df.row :=
  select_trade <$> [open_trade 1 1 "A"; open_trade 2 2 "B"].

Definition one_closed_trade : list trades_df.row :=
  select_trade <$> [closed_trade 1 1 "BUY" "A" 7; open_trade 2 2 "B"].

(** The cache a first run leaves behind. *)
Definition cache_after (tr : list trades.row)
    (sent : list market_sentiment.row) (t0 : Z) : cache :=
  mk_cache (Some (mk_entry (sql_load_trades tr) t0))
           (Some (mk_entry (sql_agent_performance tr) t0))
           (Some (mk_entry (sql_sentiment_history sent) t0)).

(** * Properties *)

(** A closed, decidable statement is settled by evaluating its decision. *)
Ltac by_evaluation :=
  match goal with
  | |- ?P => apply (bool_decide_unpack P); vm_compute; exact I
  end.

(** ** Rationals, sums and sorted lists *)

Lemma Qc_of_Z_0 : Qc_of_Z 0 = 0%Qc.
Proof. by apply Qc_is_canon. Qed.

Lemma Qc_of_Z_eq_0 n : Qc_of_Z n = 0%Qc → n = 0.
Proof. intros H. apply (f_equal this) in H. cbv in H. congruence. Qed.

Lemma Qc_zero_quotient (x : Qc) : (0 / x * Qc_of_Z 100 = 0)%Qc.
Proof. unfold Qcdiv. ring. Qed.

Lemma rate_above_100 (w n : Z) :
  0 < n → n < w →
  (Qc_of_Z 100 < Qc_of_Z w / Qc_of_Z n * Qc_of_Z 100)%Qc.
Proof.
  intros Hn Hw. unfold Qclt, Qcdiv, Qcmult, Qcinv, Q2Qc. cbn [this Qc_of_Z].
  rewrite !Qred_correct.
  destruct n as [|p|p]; try lia.
  unfold Qlt, Qmult, Qinv, inject_Z. cbn. nia.
Qed.

Lemma qsum_app (l k : list Qc) : qsum (l ++ k) = (qsum l + qsum k)%Qc.
Proof.
  unfold qsum. induction l as [|x l IH]; csimpl; [by rewrite Qcplus_0_l|].
  rewrite IH. ring.
Qed.

Lemma qsum_Permutation (l k : list Qc) : l ≡ₚ k → qsum l = qsum k.
Proof.
  unfold qsum. induction 1 as [|x l k _ IH|x y l|l k m _ IH1 _ IH2]; csimpl.
  - done.
  - by rewrite IH.
  - ring.
  - by rewrite IH1.
Qed.

Lemma zsum_Permutation (l k : list Z) :
  l ≡ₚ k → foldr Z.add 0 l = foldr Z.add 0 k.
Proof.
  induction 1 as [|x l k _ IH|x y l|l k m _ IH1 _ IH2]; simpl.
  - done.
  - by rewrite IH.
  - lia.
  - congruence.
Qed.

Lemma filter_all {A} (P : A → Prop) `{∀ x, Decision (P x)} (l : list A) :
  Forall P l → filter P l = l.
Proof.
  induction 1 as [|x l Hx _ IH]; [done|].
  by rewrite filter_cons, decide_True, IH.
Qed.

Lemma filter_none {A} (P : A → Prop) `{∀ x, Decision (P x)} (l : list A) :
  Forall (λ x, ¬ P x) l → filter P l = [].
Proof.
  induction 1 as [|x l Hx _ IH]; [done|].
  by rewrite filter_cons, decide_False.
Qed.

Lemma strongly_sorted_lookup {A} (R : relation A) (l : list A) (i j : nat)
    (a b : A) :
  StronglySorted R l → (i < j)%nat → l !! i = Some a → l !! j = Some b →
  R a b.
Proof.
  intros Hs. revert i j.
  induction Hs as [|x l Hs IH Hall]; intros i j Hij Hi Hj; [done|].
  destruct i as [|i], j as [|j]; simplify_eq/=; try lia.
  - by eapply Forall_lookup_1.
  - eapply (IH i j); [lia|done..].
Qed.

Global Instance ts_asc_total {A} (ts : A → Z) : Total (ts_asc ts).
Proof. intros a b. unfold ts_asc. lia. Qed.
Global Instance ts_asc_trans {A} (ts : A → Z) : Transitive (ts_asc ts).
Proof. intros a b c. unfold ts_asc. lia. Qed.
Global Instance ts_desc_total {A} (ts : A → Z) : Total (ts_desc ts).
Proof. intros a b. unfold ts_desc. lia. Qed.
Global Instance ts_desc_trans {A} (ts : A → Z) : Transitive (ts_desc ts).
Proof. intros a b c. unfold ts_desc. lia. Qed.

Global Instance total_profit_desc_total : Total total_profit_desc.
Proof. intros a b. unfold total_profit_desc. apply Qc_le_total. Qed.
Global Instance total_profit_desc_trans : Transitive total_profit_desc.
Proof.
  intros a b c Hab Hbc. unfold total_profit_desc in *.
  by eapply Qcle_trans.
Qed.

(** ** The equity curve *)

(** The value at a point is the sum over all closed trades up to its
    timestamp. *)
Lemma equity_point_sum (tbl : list trades.row) (cur : trades.row * Qc) :
  equity.cumulative_profit
    (equity_point (merge_sort (ts_asc closed_timestamp) (closed tbl)) cur)
  = qsum (filter (λ rp, closed_timestamp rp ≤ closed_timestamp cur)
            (closed tbl)).*2.
Proof.
  unfold equity_point, window_frame. simpl.
  apply qsum_Permutation, fmap_Permutation, filter_Permutation,
    merge_sort_Permutation.
Qed.

Lemma strictly_sorted (rows : list (trades.row * Qc)) :
  StronglySorted (ts_asc closed_timestamp) rows →
  NoDup (closed_timestamp <$> rows) →
  StronglySorted (λ a b, closed_timestamp a < closed_timestamp b) rows.
Proof.
  induction 1 as [|rp rows Hs IH Hall]; intros Hnd; [constructor|].
  rewrite fmap_cons in Hnd. apply NoDup_cons in Hnd as [Hnotin Hnd].
  constructor; [by apply IH|].
  apply Forall_forall. intros rp' Hin.
  rewrite Forall_forall in Hall. specialize (Hall rp' Hin).
  unfold ts_asc in Hall.
  destruct (decide (closed_timestamp rp = closed_timestamp rp')) as [E|];
    [|lia].
  destruct Hnotin. rewrite E. by apply list_elem_of_fmap_2.
Qed.

(** On rows in strictly increasing timestamp order the window sums are the
    running totals. *)
Lemma window_sums_running_total (pre suf : list (trades.row * Qc)) :
  StronglySorted (λ a b, closed_timestamp a < closed_timestamp b)
    (pre ++ suf) →
  equity_point (pre ++ suf) <$> suf = running_total (qsum pre.*2) suf.
Proof.
  revert pre. induction suf as [|cur suf IH]; intros pre Hs; [done|].
  csimpl. f_equal.
  - unfold equity_point, window_frame. f_equal.
    apply StronglySorted_app in Hs as (Hcross & _ & Hsuf).
    apply StronglySorted_cons in Hsuf as [Hlater _].
    rewrite filter_app, filter_cons, decide_True by done.
    rewrite filter_all, filter_none.
    + rewrite fmap_app, qsum_app. unfold qsum. csimpl. ring.
    + eapply Forall_impl; [exact Hlater|]. simpl. lia.
    + apply Forall_forall. intros rp Hin.
      specialize (Hcross rp cur Hin). simpl in Hcross.
      assert (cur ∈ cur :: suf) by left. naive_solver lia.
  - replace (pre ++ cur :: suf) with ((pre ++ [cur]) ++ suf) in *
      by (by rewrite <- app_assoc).
    rewrite IH by done.
    rewrite fmap_app, qsum_app. unfold qsum. csimpl.
    by rewrite Qcplus_0_r.
Qed.

(** C1, as stated, fails: two closed trades at one instant (profits 10 and
    5) give two points that both hold 15, so the points of a tie are not
    told apart, and in neither order of the two trades are the values the
    running totals (10, 15 or 5, 15) the prefix-sum law asks for. *)
Lemma tied_trades_share_one_value :
  this ∘ equity.cumulative_profit <$> sql_equity_curve tied_trades
  = [15%Q; 15%Q]
  ∧ ∀ rows, rows ≡ₚ closed tied_trades →
            sql_equity_curve tied_trades ≠ running_total 0%Qc rows.
Proof.
  split; [by vm_compute|].
  intros rows Hperm.
  change (closed tied_trades) with
    [(tied_first, Qc_of_Z 10); (tied_second, Qc_of_Z 5)] in Hperm.
  symmetry in Hperm.
  apply Permutation_length_2_inv in Hperm as [-> | ->]; intros Heq;
    apply (f_equal (fmap (this ∘ equity.cumulative_profit))) in Heq;
    vm_compute in Heq; discriminate.
Qed.

(** C1, amended.  The equity curve has one point per closed trade, in
    ascending timestamp order; the value at a point is the sum of the
    profits of all closed trades whose timestamp is at most the point's, so
    the closed trades of one instant share one value; and where no two closed
    trades share a timestamp the values obey the prefix-sum law along the
    closed trades in timestamp order. *)
Theorem equity_curve_window_sums (tbl : list trades.row) :
  equity.timestamp <$> sql_equity_curve tbl ≡ₚ closed_timestamp <$> closed tbl
  ∧ StronglySorted Z.le (equity.timestamp <$> sql_equity_curve tbl)
  ∧ Forall (λ pt,
      equity.cumulative_profit pt
      = qsum (filter (λ rp, closed_timestamp rp ≤ equity.timestamp pt)
                (closed tbl)).*2)
      (sql_equity_curve tbl)
  ∧ (NoDup (closed_timestamp <$> closed tbl) →
     sql_equity_curve tbl
     = running_total 0%Qc
         (merge_sort (ts_asc closed_timestamp) (closed tbl))).
Proof.
  unfold sql_equity_curve.
  set (rows := merge_sort (ts_asc closed_timestamp) (closed tbl)).
  assert (Hperm : rows ≡ₚ closed tbl) by apply merge_sort_Permutation.
  assert (Hsorted : StronglySorted (ts_asc closed_timestamp) rows)
    by (apply StronglySorted_merge_sort; apply _).
  split; [|split; [|split]].
  - rewrite <- list_fmap_compose. by rewrite <- Hperm.
  - rewrite <- list_fmap_compose.
    eapply StronglySorted_fmap; [|exact Hsorted]. done.
  - apply Forall_fmap, Forall_forall. intros cur _.
    apply equity_point_sum.
  - intros Hnd.
    apply (window_sums_running_total [] rows), strictly_sorted; [done|].
    by rewrite Hperm.
Qed.

(** The scenario of the specification: profits 10, -5, 20 at three instants
    give the curve 10, 5, 25. *)
Lemma equity_curve_window_sums_witness :
  NoDup (closed_timestamp <$> closed three_trades)
  ∧ sql_equity_curve three_trades
    = running_total 0%Qc
        (merge_sort (ts_asc closed_timestamp) (closed three_trades))
  ∧ this ∘ equity.cumulative_profit <$> sql_equity_curve three_trades
    = [10%Q; 5%Q; 25%Q].
Proof.
  assert (Hnd : NoDup (closed_timestamp <$> closed three_trades)).
  { by_evaluation. }
  split; [exact Hnd|]. split.
  - exact (proj2 (proj2 (proj2 (equity_curve_window_sums three_trades))) Hnd).
  - vm_compute. reflexivity.
Defined.

(** ** Agent performance *)

Lemma closed_elem_of (tbl : list trades.row) (r : trades.row) (p : Qc) :
  (r, p) ∈ closed tbl ↔ r ∈ tbl ∧ trades.profit r = Some p.
Proof.
  unfold closed. rewrite list_elem_of_omap. split.
  - intros (r' & Hin & Heq). destruct (trades.profit r') as [p'|] eqn:E;
      simplify_eq/=. done.
  - intros [Hin Hp]. exists r. by rewrite Hp.
Qed.

Lemma closed_drops_open_trades (tbl : list trades.row) :
  closed (filter (λ r, is_Some (trades.profit r)) tbl) = closed tbl.
Proof.
  unfold closed. induction tbl as [|r tbl IH]; [done|].
  rewrite filter_cons.
  destruct (decide (is_Some (trades.profit r))) as [[p Hp]|Hn].
  - cbn [omap list_omap]. rewrite Hp. cbn [fmap option_fmap option_map].
    f_equal. exact IH.
  - cbn [omap list_omap]. destruct (trades.profit r) as [p|] eqn:E.
    + destruct Hn. by exists p.
    + exact IH.
Qed.

Lemma foldl_agg_step (l : list (trades.row * Qc)) (a0 : agg) :
  foldl agg_step a0 l
  = mk_agg
      (count_star a0 + Z.of_nat (length l))
      (sum_wins a0 + Z.of_nat (length (filter (λ rp, (0 < rp.2)%Qc) l)))
      (sum_profit a0 + qsum l.*2)%Qc
      (sum_confidence a0 + qsum (omap (λ rp, trades.confidence rp.1) l))%Qc
      (count_confidence a0
       + Z.of_nat (length (omap (λ rp, trades.confidence rp.1) l))).
Proof.
  revert a0. induction l as [|rp l IH]; intros a0.
  - destruct a0; simpl. f_equal; try lia; symmetry; apply Qcplus_0_r.
  - simpl foldl. rewrite IH. unfold agg_step. csimpl.
    rewrite filter_cons.
    destruct (trades.confidence rp.1) as [cf|];
      case_bool_decide; [rewrite decide_True by done|
                         rewrite decide_False by done|
                         rewrite decide_True by done|
                         rewrite decide_False by done];
      csimpl; f_equal; try lia; unfold qsum; csimpl; ring.
Qed.

Lemma group_by_agent_foldl (rows : list (trades.row * Qc))
    (m : gmap (option string) agg) (a : option string) :
  foldl (λ m rp,
           partial_alter (λ o, Some (agg_step (default agg_init o) rp))
             (trades.agent_name rp.1) m) m rows !! a
  = match filter (λ rp, trades.agent_name rp.1 = a) rows with
    | [] => m !! a
    | mine => Some (foldl agg_step (default agg_init (m !! a)) mine)
    end.
Proof.
  revert m. induction rows as [|rp rows IH]; intros m; [done|].
  simpl foldl. rewrite IH, filter_cons.
  destruct (decide (trades.agent_name rp.1 = a)) as [Heq|Hne].
  - rewrite Heq, lookup_partial_alter_eq. simpl.
    by destruct (filter _ rows).
  - by rewrite lookup_partial_alter_ne.
Qed.

Lemma group_by_agent_lookup (rows : list (trades.row * Qc))
    (a : option string) :
  group_by_agent rows !! a
  = match filter (λ rp, trades.agent_name rp.1 = a) rows with
    | [] => None
    | mine => Some (foldl agg_step agg_init mine)
    end.
Proof. unfold group_by_agent. by rewrite group_by_agent_foldl. Qed.

Lemma agg_final_figures (a : option string) (tbl : list trades.row) :
  agg_final (a, foldl agg_step agg_init (closed_trades_of a tbl))
  = agent_figures a tbl.
Proof.
  rewrite foldl_agg_step. unfold agg_final, agent_figures, agg_init.
  cbn [fst snd count_star sum_wins sum_profit sum_confidence
       count_confidence].
  rewrite !Z.add_0_l, !Qcplus_0_l. f_equal.
  destruct (omap _ (closed_trades_of a tbl)) as [|cf cfs]; [done|].
  by rewrite decide_False by (simpl; lia).
Qed.

Lemma group_by_agent_closed (tbl : list trades.row) (a : option string)
    (ag : agg) :
  group_by_agent (closed tbl) !! a = Some ag
  ↔ closed_trades_of a tbl ≠ []
    ∧ ag = foldl agg_step agg_init (closed_trades_of a tbl).
Proof.
  rewrite group_by_agent_lookup. fold (closed_trades_of a tbl).
  destruct (closed_trades_of a tbl) as [|rp mine]; split.
  - intros [=].
  - by intros [? _].
  - by intros [= <-].
  - by intros [_ ->].
Qed.

(** The rows of the query are the finished groups, in some order. *)
Lemma sql_agent_performance_groups (tbl : list trades.row) :
  sql_agent_performance tbl
  ≡ₚ agg_final <$> map_to_list (group_by_agent (closed tbl)).
Proof.
  unfold sql_agent_performance. by rewrite merge_sort_Permutation.
Qed.

Lemma sql_agent_performance_elem_of (tbl : list trades.row)
    (row : agent_perf.row) :
  row ∈ sql_agent_performance tbl
  ↔ ∃ a, closed_trades_of a tbl ≠ [] ∧ row = agent_figures a tbl.
Proof.
  rewrite sql_agent_performance_groups, list_elem_of_fmap. split.
  - intros ([a ag] & -> & Hin).
    apply elem_of_map_to_list, group_by_agent_closed in Hin as [Hne ->].
    exists a. by rewrite agg_final_figures.
  - intros (a & Hne & ->).
    exists (a, foldl agg_step agg_init (closed_trades_of a tbl)).
    split; [by rewrite agg_final_figures|].
    by apply elem_of_map_to_list, group_by_agent_closed.
Qed.

(** The pairs the WHERE clause keeps for an agent are its closed trades
    with their profits. *)
Lemma closed_trades_of_agent (a : option string) (tbl : list trades.row) :
  (closed_trades_of a tbl).*1 = agent_closed_trades a tbl
  ∧ (closed_trades_of a tbl).*2
    = omap trades.profit (agent_closed_trades a tbl).
Proof.
  unfold closed_trades_of, agent_closed_trades, closed.
  induction tbl as [|r tbl [IH1 IH2]]; [done|].
  rewrite (filter_cons _ r). cbn [omap list_omap].
  fold (omap (λ r, pair r <$> trades.profit r) tbl).
  destruct (trades.profit r) as [p|] eqn:Ep; csimpl.
  - rewrite filter_cons.
    destruct (decide (trades.agent_name r = a)) as [Ha|Ha].
    + rewrite decide_True by (simpl; done).
      rewrite decide_True by (split; [done|by eexists]).
      csimpl. by rewrite Ep, IH1, IH2.
    + rewrite decide_False by (simpl; done).
      by rewrite decide_False by (by intros [? _]).
  - rewrite decide_False by (by intros [_ [? ?]]). done.
Qed.

Lemma length_filter_snd (P : Qc → Prop) `{∀ p, Decision (P p)}
    (l : list (trades.row * Qc)) :
  length (filter (λ rp, P rp.2) l) = length (filter P l.*2).
Proof.
  induction l as [|rp l IH]; [done|].
  rewrite fmap_cons, !filter_cons. simpl.
  destruct (decide (P rp.2)); simpl; by rewrite IH.
Qed.

Lemma agent_figures_performance_row (a : option string)
    (tbl : list trades.row) :
  agent_figures a tbl = performance_row a tbl.
Proof.
  destruct (closed_trades_of_agent a tbl) as [E1 E2].
  unfold agent_figures, performance_row.
  rewrite <- E2, <- E1, length_fmap.
  rewrite (length_filter_snd (λ p, (0 < p)%Qc)).
  f_equal. f_equal. clear E1 E2.
  induction (closed_trades_of a tbl) as [|rp l IH]; [done|].
  csimpl. by rewrite IH.
Qed.

Lemma closed_trades_of_nonempty (a : option string) (tbl : list trades.row) :
  closed_trades_of a tbl ≠ []
  ↔ ∃ r, r ∈ tbl ∧ trades.agent_name r = a ∧ is_Some (trades.profit r).
Proof.
  split.
  - destruct (closed_trades_of a tbl) as [|[r p] rest] eqn:E; [done|].
    intros _.
    assert (Hrp : (r, p) ∈ closed_trades_of a tbl) by (rewrite E; left).
    apply list_elem_of_filter in Hrp as [Hag Hrp].
    apply closed_elem_of in Hrp as [Hr Hp]. exists r. by rewrite Hp.
  - intros (r & Hr & Ha & [p Hp]) E.
    assert (Hrp : (r, p) ∈ closed_trades_of a tbl).
    { apply list_elem_of_filter. split; [done|]. by apply closed_elem_of. }
    rewrite E in Hrp. by apply elem_of_nil in Hrp.
Qed.

(** C2.  AgentPerformance has one row for every agent name that a stored
    trade with a profit carries, and no other row and no second row for a
    name; the row of an agent holds, over the stored rows with its name and
    a profit, their number, the number of those whose profit is strictly
    above 0, the sum and the mean of their profits, and the mean of their
    confidences that are set.  Trades whose profit is null count for
    nothing: dropping them from the table leaves the result as it is.  On
    [mixed_trades] the rows are A: 2 trades, 1 win (the trade closed at 0
    is none), 100, 50, and B: 2 trades, 1 win, 10, 5, both with the mean
    confidence 4/5 of the confidences that are set; C, whose only trade is
    open, has no row. *)
Theorem agent_performance_figures (tbl : list trades.row) :
  (∀ row, row ∈ sql_agent_performance tbl
          ↔ ∃ a, (∃ r, r ∈ tbl ∧ trades.agent_name r = a
                       ∧ is_Some (trades.profit r))
                 ∧ row = performance_row a tbl)
  ∧ NoDup (agent_perf.agent_name <$> sql_agent_performance tbl)
  ∧ sql_agent_performance (filter (λ r, is_Some (trades.profit r)) tbl)
    = sql_agent_performance tbl
  ∧ sql_agent_performance mixed_trades
    = [ agent_perf.mk (Some "A") 2 1 (Qc_of_Z 100) (Qc_of_Z 50)
          (Some (Q2Qc (4 # 5)));
        agent_perf.mk (Some "B") 2 1 (Qc_of_Z 10) (Qc_of_Z 5)
          (Some (Q2Qc (4 # 5))) ].
Proof.
  split; [|split; [|split]].
  - intros row. rewrite sql_agent_performance_elem_of.
    split; intros (a & Hne & ->); exists a;
      (split; [by apply closed_trades_of_nonempty
              |by rewrite agent_figures_performance_row]).
  - rewrite sql_agent_performance_groups, <- list_fmap_compose.
    apply (NoDup_fst_map_to_list (group_by_agent (closed tbl))).
  - unfold sql_agent_performance. by rewrite closed_drops_open_trades.
  - by_evaluation.
Qed.

(** Every aggregated row counts at least one trade, and no more wins than
    trades. *)
Lemma agent_row_counts (tbl : list trades.row) (row : agent_perf.row) :
  row ∈ sql_agent_performance tbl →
  1 ≤ agent_perf.total_trades row
  ∧ 0 ≤ agent_perf.wins row ≤ agent_perf.total_trades row.
Proof.
  intros (a & Hne & ->)%sql_agent_performance_elem_of.
  unfold agent_figures. simpl.
  pose proof (length_filter (λ rp : trades.row * Qc, (0 < rp.2)%Qc)
                (closed_trades_of a tbl)).
  destruct (closed_trades_of a tbl); [done|]. simpl in *. lia.
Qed.

Example scenario_agent_performance :
  agent_figures (Some "A") scenario_trades
  = agent_perf.mk (Some "A") 2 1 (Qc_of_Z 60) (Qc_of_Z 30)
      (Some (Q2Qc (4 # 5)))
  ∧ agent_figures (Some "B") scenario_trades
    = agent_perf.mk (Some "B") 1 1 (Qc_of_Z 50) (Qc_of_Z 50)
        (Some (Q2Qc (4 # 5)))
  ∧ agent_perf.agent_name ∘ perf
    <$> leaderboard (sql_agent_performance scenario_trades)
    = [Some "A"; Some "B"].
Proof. split; [by_evaluation|]. split; by_evaluation. Qed.

(** ** The leaderboard *)

(** The win rate of a leaderboard row is a number: the division on line
    182 never meets a zero count. *)
Lemma leaderboard_win_rate_finite (tbl : list trades.row)
    (row : agent_perf.row) :
  row ∈ sql_agent_performance tbl →
  win_rate (add_win_rate row)
  = Finite (Qc_of_Z (agent_perf.wins row)
            / Qc_of_Z (agent_perf.total_trades row) * Qc_of_Z 100)%Qc.
Proof.
  intros [Hpos _]%agent_row_counts.
  unfold add_win_rate, series_truediv. simpl.
  by rewrite decide_False by lia.
Qed.

(** C3, as stated, fails: the frame is sorted on the single key
    total_profit, by a sort that does not keep rows of equal total profit in
    the order they arrive in.  The twenty agents of [twenty_agents] arrive
    in the order of their names, Ag01 to Ag20, with the total profits 10,
    20, 10, 20 and so on; on the leaderboard some agent stands above an
    agent of the same total profit and of a smaller name. *)
Lemma leaderboard_ties_not_by_name :
  agent_perf.agent_name <$> sql_agent_performance twenty_agents
  = Some <$> twenty_names
  ∧ agent_perf.total_profit <$> sql_agent_performance twenty_agents
    = imap (λ i _, Qc_of_Z (if Nat.even i then 10 else 20)) twenty_names
  ∧ ¬ ties_by_name (leaderboard (sql_agent_performance twenty_agents)).
Proof.
  split; [by_evaluation|]. split; [by_evaluation|].
  intros Hties.
  assert (H : ∃ ri rj,
    leaderboard (sql_agent_performance twenty_agents) !! 0%nat = Some ri
    ∧ leaderboard (sql_agent_performance twenty_agents) !! 2%nat = Some rj
    ∧ agent_perf.total_profit (perf ri) = agent_perf.total_profit (perf rj)
    ∧ ¬ name_le (agent_perf.agent_name (perf ri))
          (agent_perf.agent_name (perf rj))).
  { eexists _, _. split; [vm_compute; reflexivity|].
    split; [vm_compute; reflexivity|]. split; by_evaluation. }
  destruct H as (ri & rj & Hi & Hj & Heq & Hname).
  apply Hname, (Hties 0%nat 2%nat ri rj); [lia|done..].
Qed.

(** C3, amended.  The leaderboard holds the aggregated rows, each once,
    in descending order of total profit: a row never stands above a row with
    a larger total profit.  No rule on agent_name orders the rows of equal
    total profit. *)
Theorem leaderboard_sorted_by_total_profit (agent_perf : list agent_perf.row) :
  perf <$> leaderboard agent_perf ≡ₚ agent_perf
  ∧ StronglySorted total_profit_desc (leaderboard agent_perf)
  ∧ ∀ (i j : nat) (ri rj : leader_row),
      (i < j)%nat →
      leaderboard agent_perf !! i = Some ri →
      leaderboard agent_perf !! j = Some rj →
      (agent_perf.total_profit (perf rj)
       ≤ agent_perf.total_profit (perf ri))%Qc.
Proof.
  assert (Hs : StronglySorted total_profit_desc (leaderboard agent_perf))
    by (apply StronglySorted_merge_sort; apply _).
  split; [|split; [exact Hs|]].
  - unfold leaderboard. rewrite merge_sort_Permutation.
    rewrite <- list_fmap_compose. by rewrite list_fmap_id.
  - intros i j ri rj Hij Hi Hj.
    by apply (strongly_sorted_lookup total_profit_desc _ i j ri rj Hs).
Qed.

(** ** The headline win rate *)

Lemma headline_win_rate_value (wins n : Z) :
  0 ≤ n →
  headline_win_rate wins n
  = Ok (if decide (n = 0) then 0%Qc
        else (Qc_of_Z wins / Qc_of_Z n * Qc_of_Z 100)%Qc).
Proof.
  intros Hn. unfold headline_win_rate, truediv.
  destruct (decide (0 < n)) as [Hpos|Hnpos].
  - destruct (decide (Qc_of_Z n = 0%Qc)) as [Hz|_].
    + apply Qc_of_Z_eq_0 in Hz. lia.
    + destruct (decide (n = 0)); [lia|done].
  - destruct (decide (n = 0)); [done|lia].
Qed.

Lemma win_rate_metric_number (agent_perf : list agent_perf.row) (n : Z) :
  0 ≤ n →
  ∃ m, win_rate_metric_of agent_perf n = Ok m
       ∧ metric_number m
         = Some (if decide (n = 0) then 0%Qc
                 else (Qc_of_Z (count_total_wins agent_perf) / Qc_of_Z n
                       * Qc_of_Z 100)%Qc).
Proof.
  intros Hn. destruct agent_perf as [|r rest].
  - exists (MetricText "0%"). split; [done|].
    change (metric_number (MetricText "0%")) with (Some 0%Qc). f_equal.
    case_decide; [done|].
    change (count_total_wins []) with 0.
    by rewrite Qc_of_Z_0, Qc_zero_quotient.
  - unfold win_rate_metric_of. rewrite headline_win_rate_value by done.
    by eexists.
Qed.

Lemma count_total_trades_nonneg (trades_df : list trades_df.row) :
  0 ≤ count_total_trades trades_df.
Proof. unfold count_total_trades. lia. Qed.

Lemma loaded_window_bound (tbl : list trades.row) :
  0 ≤ count_total_trades (sql_load_trades tbl) ≤ 100.
Proof.
  split; [apply count_total_trades_nonneg|].
  unfold count_total_trades, sql_load_trades.
  pose proof (length_filter is_buy_or_sell
    (take 100 (merge_sort (ts_desc trades_df.timestamp) (select_trade <$> tbl)))).
  pose proof (firstn_le_length 100
    (merge_sort (ts_desc trades_df.timestamp) (select_trade <$> tbl))).
  lia.
Qed.

Lemma group_step_wins (m : gmap (option string) agg)
    (rp : trades.row * Qc) :
  foldr Z.add 0
    (sum_wins ∘ snd
     <$> map_to_list
           (partial_alter (λ o, Some (agg_step (default agg_init o) rp))
              (trades.agent_name rp.1) m))
  = foldr Z.add 0 (sum_wins ∘ snd <$> map_to_list m)
    + (if bool_decide (0 < rp.2)%Qc then 1 else 0).
Proof.
  set (k := trades.agent_name rp.1).
  assert (E : partial_alter (λ o, Some (agg_step (default agg_init o) rp)) k m
              = <[k := agg_step (default agg_init (m !! k)) rp]> m).
  { apply partial_alter_ext. by intros o <-. }
  rewrite E. clear E.
  destruct (m !! k) as [ag|] eqn:Hk.
  - rewrite <- insert_delete_eq.
    rewrite (zsum_Permutation _
               (sum_wins ∘ snd
                <$> (k, agg_step (default agg_init (Some ag)) rp)
                    :: map_to_list (delete k m)))
      by (apply fmap_Permutation, map_to_list_insert, lookup_delete_eq).
    rewrite (zsum_Permutation (sum_wins ∘ snd <$> map_to_list m)
               (sum_wins ∘ snd <$> (k, ag) :: map_to_list (delete k m)))
      by (apply fmap_Permutation; symmetry; by apply map_to_list_delete).
    csimpl. lia.
  - rewrite (zsum_Permutation _
               (sum_wins ∘ snd
                <$> (k, agg_step (default agg_init None) rp)
                    :: map_to_list m))
      by (by apply fmap_Permutation, map_to_list_insert).
    csimpl. lia.
Qed.

Lemma group_by_agent_wins (rows : list (trades.row * Qc))
    (m : gmap (option string) agg) :
  foldr Z.add 0
    (sum_wins ∘ snd
     <$> map_to_list
           (foldl (λ m rp,
                     partial_alter
                       (λ o, Some (agg_step (default agg_init o) rp))
                       (trades.agent_name rp.1) m) m rows))
  = foldr Z.add 0 (sum_wins ∘ snd <$> map_to_list m)
    + Z.of_nat (length (filter (λ rp, (0 < rp.2)%Qc) rows)).
Proof.
  revert m. induction rows as [|rp rows IH]; intros m; csimpl; [lia|].
  rewrite IH, group_step_wins, filter_cons.
  case_bool_decide; [rewrite decide_True by done|
                     rewrite decide_False by done]; csimpl; lia.
Qed.

(** The wins summed over the rows of AgentPerformance are all the winning
    closed trades of the table; no window limits them. *)
Lemma total_wins_whole_history (tbl : list trades.row) :
  count_total_wins (sql_agent_performance tbl)
  = Z.of_nat (length (filter (λ rp, (0 < rp.2)%Qc) (closed tbl))).
Proof.
  unfold count_total_wins.
  rewrite (zsum_Permutation _ _
             (fmap_Permutation _ _ _ (sql_agent_performance_groups tbl))).
  unfold group_by_agent. rewrite <- list_fmap_compose.
  rewrite (list_fmap_ext (agent_perf.wins ∘ agg_final) (sum_wins ∘ snd)
             (map_to_list _) (λ _ _ _, eq_refl)).
  rewrite group_by_agent_wins. by rewrite map_to_list_empty.
Qed.

Lemma winning_closed_trades (tbl : list trades.row) :
  length (filter (λ rp, (0 < rp.2)%Qc) (closed tbl))
  = length (filter is_win tbl).
Proof.
  unfold closed, is_win. induction tbl as [|r tbl IH]; [done|].
  rewrite (filter_cons _ r). cbn [omap list_omap].
  fold (omap (λ r, pair r <$> trades.profit r) tbl).
  destruct (trades.profit r) as [p|]; csimpl.
  - rewrite filter_cons. simpl.
    destruct (decide (0 < p)%Qc) as [Hp|Hp];
      destruct (decide (Is_true (bool_decide (0 < p)%Qc))) as [Hb|Hb]; simpl;
      try (by rewrite IH).
    + destruct Hb. by apply bool_decide_pack.
    + by apply bool_decide_unpack in Hb.
  - done.
Qed.

Lemma count_total_trades_actions (trades_df : list trades_df.row) :
  count_total_trades trades_df
  = Z.of_nat (length (filter (λ r, trades_df.action r = Some "BUY"
                                   ∨ trades_df.action r = Some "SELL")
                        trades_df)).
Proof.
  unfold count_total_trades. do 2 f_equal. apply list_filter_iff.
  intros r. unfold is_buy_or_sell. rewrite bool_decide_spec.
  rewrite !elem_of_cons, elem_of_nil. tauto.
Qed.

(** C4.  Whatever the frames of AgentPerformance and of the loaded trades
    hold (so for every store state, the empty one included) the headline
    win rate is defined and nothing is raised: it is 0 when no loaded trade
    has the action BUY or SELL, and otherwise the wins of the rows of
    AgentPerformance added up, divided by the number of loaded trades whose
    action is BUY or SELL, times 100 (with no row in AgentPerformance the
    text 0% is shown).  On a store the wins added up are the stored trades
    with a profit above 0, and the trades counted are those of the at most
    100 rows of [load_trades].  For [three_trades], two wins in three
    trades, the rate is 200/3. *)
Theorem headline_win_rate_defined (agent_perf : list agent_perf.row)
    (trades_df : list trades_df.row) (tbl : list trades.row) :
  let rate := λ wins n : Z,
    if decide (n = 0) then 0%Qc
    else (Qc_of_Z wins / Qc_of_Z n * Qc_of_Z 100)%Qc in
  let wins := foldr Z.add 0 (agent_perf.wins <$> agent_perf) in
  let n := Z.of_nat (length (filter (λ r, trades_df.action r = Some "BUY"
                                          ∨ trades_df.action r = Some "SELL")
                               trades_df)) in
  let n_loaded :=
    Z.of_nat (length (filter (λ r, trades_df.action r = Some "BUY"
                                   ∨ trades_df.action r = Some "SELL")
                        (sql_load_trades tbl))) in
  count_total_trades trades_df = n
  ∧ win_rate_metric_of agent_perf (count_total_trades trades_df)
    = Ok (match agent_perf with
          | [] => MetricText "0%"
          | _ => MetricPercent (rate wins n)
          end)
  ∧ (∃ m,
       win_rate_metric_of agent_perf (count_total_trades trades_df) = Ok m
       ∧ metric_number m = Some (rate wins n))
  ∧ (∃ m,
       win_rate_metric_of (sql_agent_performance tbl)
         (count_total_trades (sql_load_trades tbl)) = Ok m
       ∧ metric_number m
         = Some (rate (Z.of_nat (length (filter is_win tbl))) n_loaded))
  ∧ (length (sql_load_trades tbl) ≤ 100)%nat
  ∧ 0 ≤ n_loaded ≤ 100
  ∧ win_rate_metric_of (sql_agent_performance three_trades)
      (count_total_trades (sql_load_trades three_trades))
    = Ok (MetricPercent (Q2Qc (200 # 3))).
Proof.
  intros rate wins n n_loaded.
  assert (Hn : count_total_trades trades_df = n)
    by apply count_total_trades_actions.
  assert (Hn0 : 0 ≤ n) by (unfold n; lia).
  split; [exact Hn|]. rewrite Hn.
  split; [|split; [|split; [|split; [|split]]]].
  - destruct agent_perf as [|r rest]; [done|].
    unfold win_rate_metric_of. by rewrite headline_win_rate_value.
  - by apply win_rate_metric_number.
  - rewrite count_total_trades_actions. fold n_loaded.
    destruct (win_rate_metric_number (sql_agent_performance tbl) n_loaded)
      as (m & Hm & Hnum); [unfold n_loaded; lia|].
    exists m. split; [exact Hm|].
    by rewrite Hnum, total_wins_whole_history, winning_closed_trades.
  - unfold sql_load_trades. rewrite length_take. lia.
  - pose proof (loaded_window_bound tbl) as H.
    by rewrite count_total_trades_actions in H.
  - by_evaluation.
Qed.

(** Whenever the history holds more than 100 winning closed trades and the
    loaded window holds a BUY or a SELL, the headline win rate is above
    100. *)
Lemma win_rate_above_100 (tbl : list trades.row) :
  (100 < length (filter (λ rp, (0 < rp.2)%Qc) (closed tbl)))%nat →
  0 < count_total_trades (sql_load_trades tbl) →
  ∃ q, win_rate_metric_of (sql_agent_performance tbl)
         (count_total_trades (sql_load_trades tbl)) = Ok (MetricPercent q)
       ∧ (Qc_of_Z 100 < q)%Qc.
Proof.
  intros Hw Hn.
  pose proof (total_wins_whole_history tbl) as Etot.
  pose proof (loaded_window_bound tbl) as [_ Hle].
  unfold win_rate_metric_of.
  destruct (sql_agent_performance tbl) as [|r rest] eqn:Eperf.
  - change (count_total_wins []) with 0 in Etot. lia.
  - rewrite headline_win_rate_value by lia.
    rewrite decide_False by lia.
    eexists. split; [done|]. apply rate_above_100; lia.
Qed.

(** C10.  The headline win rate can exceed 100: with 101 winning closed
    trades in the history the wins add up to 101 while only the 100 loaded
    trades are counted below the line, so the rate is 101. *)
Theorem win_rate_can_exceed_100 :
  ∃ (tbl : list trades.row) (m : metric) (q : Qc),
    count_total_wins (sql_agent_performance tbl) = 101
    ∧ count_total_trades (sql_load_trades tbl) = 100
    ∧ win_rate_metric_of (sql_agent_performance tbl)
        (count_total_trades (sql_load_trades tbl)) = Ok m
    ∧ metric_number m = Some q
    ∧ (Qc_of_Z 100 < q)%Qc.
Proof.
  exists (winning_history 101).
  assert (Hw : count_total_wins (sql_agent_performance (winning_history 101))
               = 101) by (vm_compute; reflexivity).
  assert (Hn : count_total_trades (sql_load_trades (winning_history 101))
               = 100) by (vm_compute; reflexivity).
  destruct (win_rate_metric_number
              (sql_agent_performance (winning_history 101))
              (count_total_trades (sql_load_trades (winning_history 101))))
    as (m & Hm & Hnum); [apply count_total_trades_nonneg|].
  exists m. eexists.
  split; [exact Hw|]. split; [exact Hn|]. split; [exact Hm|].
  split; [exact Hnum|].
  rewrite Hw, Hn. vm_compute. reflexivity.
Qed.

(** ** The signal axis *)

Lemma signal_map_lookup (k : string) :
  signal_map !! k =
    if decide (k = "BULLISH") then Some 1
    else if decide (k = "NEUTRAL") then Some 0
    else if decide (k = "BEARISH") then Some (-1)
    else None.
Proof.
  unfold signal_map.
  repeat (rewrite lookup_insert || rewrite lookup_singleton).
  repeat case_decide; simplify_eq; done.
Qed.

Lemma signal_value_axis (s : option string) : signal_value s = signal_axis s.
Proof.
  unfold signal_value, series_map_signal, signal_axis.
  destruct s as [k|]; simpl; [|done].
  rewrite signal_map_lookup.
  repeat case_decide; simplify_eq; done.
Qed.

(** C5.  The signal mapping is total: BULLISH gives +1, NEUTRAL 0, BEARISH
    -1, every other signal and a missing one give 0; and the plotted signal
    series holds exactly this value for every record of the sentiment
    history, in chronological order. *)
Theorem signal_mapping_total (tbl : list market_sentiment.row)
    (s : option string) :
  signal_value (Some "BULLISH") = 1
  ∧ signal_value (Some "NEUTRAL") = 0
  ∧ signal_value (Some "BEARISH") = -1
  ∧ signal_value None = 0
  ∧ signal_value s = signal_axis s
  ∧ chronological (sql_sentiment_history tbl) ≡ₚ sql_sentiment_history tbl
  ∧ signal_series (sql_sentiment_history tbl)
    = (λ r, (market_sentiment.timestamp r,
             signal_axis (market_sentiment.sentiment_signal r)))
      <$> chronological (sql_sentiment_history tbl).
Proof.
  repeat split; try done.
  - apply signal_value_axis.
  - apply merge_sort_Permutation.
  - unfold signal_series. apply list_fmap_ext.
    intros _ r _. by rewrite signal_value_axis.
Qed.

(** ** The cache and the store *)

Lemma cache_data_coherent {A} (ttl now : Z) (slot : option (entry A))
    (run : result A) :
  slot_coherent slot run →
  (cache_data ttl now slot run).1 = run
  ∧ slot_coherent (cache_data ttl now slot run).2 run.
Proof.
  intros Hc. unfold cache_data.
  destruct slot as [e|].
  - case_decide.
    + split; [by rewrite (Hc e)|done].
    + destruct run as [v|x]; simpl; (split; [done|]); intros e' [=]; by subst.
  - destruct run as [v|x]; simpl; (split; [done|]); intros e' [=]; by subst.
Qed.

Lemma cache_data_raise {A} (ttl now : Z) (slot : option (entry A)) :
  (cache_data ttl now slot (Raise DatabaseError)).1
  = cached_or_raise ttl now slot.
Proof. destruct slot as [e|]; simpl; [by case_decide|done]. Qed.

Section coherence.
Context (db : database).

Lemma coherent_empty : coherent db cache_empty.
Proof. repeat split; intros e [=]. Qed.

Lemma load_trades_coherent (now : Z) (c : cache) :
  coherent db c →
  (load_trades db now c).1 = read_sql_query sql_load_trades (trades_table db)
  ∧ coherent db (load_trades db now c).2.
Proof.
  intros (Ht & Hp & Hs). unfold load_trades. simpl.
  destruct (cache_data_coherent 10 now _ _ Ht) as [-> Ht']. by repeat split.
Qed.

Lemma load_agent_performance_coherent (now : Z) (c : cache) :
  coherent db c →
  (load_agent_performance db now c).1
  = read_sql_query sql_agent_performance (trades_table db)
  ∧ coherent db (load_agent_performance db now c).2.
Proof.
  intros (Ht & Hp & Hs). unfold load_agent_performance. simpl.
  destruct (cache_data_coherent 60 now _ _ Hp) as [-> Hp']. by repeat split.
Qed.

Lemma load_sentiment_history_coherent (now : Z) (c : cache) :
  coherent db c →
  (load_sentiment_history db now c).1
  = read_sql_query sql_sentiment_history (sentiment_table db)
  ∧ coherent db (load_sentiment_history db now c).2.
Proof.
  intros (Ht & Hp & Hs). unfold load_sentiment_history. simpl.
  destruct (cache_data_coherent 300 now _ _ Hs) as [-> Hs']. by repeat split.
Qed.

Lemma invoke_coherent (op : operation) (now : Z) (c : cache) :
  coherent db c →
  (invoke db op now c).1 = query db op ∧ coherent db (invoke db op now c).2.
Proof.
  intros Hc. destruct op; unfold invoke, query; cbn [fst snd].
  - by destruct (load_trades_coherent now c Hc) as [-> ?].
  - by destruct (load_agent_performance_coherent now c Hc) as [-> ?].
  - by destruct (load_sentiment_history_coherent now c Hc) as [-> ?].
  - done.
Qed.

Lemma run_calls_coherent (calls : list (operation * Z))
    (c : cache) :
  coherent db c → coherent db (run_calls db calls c).
Proof.
  revert c. induction calls as [|call calls IH]; intros c Hc; [done|].
  apply IH. by apply invoke_coherent.
Qed.

End coherence.

Lemma cache_data_fresh {A} (ttl now : Z) (slot : option (entry A))
    (run : result A) :
  (cache_data ttl now slot run).1
  = match fresh ttl now slot with Some v => Ok v | None => run end.
Proof.
  unfold cache_data, fresh. destruct slot as [e|].
  - case_decide; [done|]. by destruct run.
  - by destruct run.
Qed.

(** C9, as stated, fails: the cache outlives a change of the store.  The
    trades were read at time 0, when the store held two of them; then the
    third is written and the store changes no more.  On that unchanged
    store RecentTrades returns the two trades at time 5 and the three
    trades at time 15, and the first result is not what the store holds. *)
Lemma stale_entry_answers_first :
  let c := (invoke earlier_store RecentTrades 0 cache_empty).2 in
  let first := invoke later_store RecentTrades 5 c in
  let second := invoke later_store RecentTrades 15 first.2 in
  first.1 = Ok (TradesFrame (sql_load_trades (take 2 three_trades)))
  ∧ second.1 = Ok (TradesFrame (sql_load_trades three_trades))
  ∧ first.1 ≠ second.1
  ∧ first.1 ≠ query later_store RecentTrades.
Proof.
  cbn zeta. split; [by_evaluation|]. split; [by_evaluation|].
  split; by_evaluation.
Qed.

(** C9, amended.  An invocation returns the value its cache holds, when
    that value is younger than the time to live of the operation (10, 60
    and 300 seconds; EquityCurve has no cache), whatever the store holds
    now, and the result of its query on the store otherwise; EquityCurve
    always returns the result of its query and leaves the cache as it is.
    On a store that has been the same since the cache was empty, whatever
    calls were made before and in between and at whatever times, two
    invocations of any of the four operations return the same result, and
    that result is the operation's query on the store. *)
Theorem operations_answer_from_cache_or_store (db : database)
    (op : operation) (c : cache) (before between : list (operation * Z))
    (now now1 now2 : Z) :
  (invoke db op now c).1
  = match cached_frame op now c with
    | Some f => Ok f
    | None => query db op
    end
  ∧ invoke db EquityCurve now c = (query db EquityCurve, c)
  ∧ (let first := invoke db op now1 (run_calls db before cache_empty) in
     let second := invoke db op now2 (run_calls db between first.2) in
     first.1 = second.1 ∧ first.1 = query db op).
Proof.
  split; [|split; [done|]].
  - destruct op; unfold invoke, query, cached_frame, load_trades,
      load_agent_performance, load_sentiment_history; cbn [fst snd];
      try rewrite cache_data_fresh; try done;
      by destruct (fresh _ _ _).
  - intros first second.
    assert (H0 : coherent db (run_calls db before cache_empty))
      by apply run_calls_coherent, coherent_empty.
    destruct (invoke_coherent db op now1 _ H0) as [H1 Hc1].
    fold first in H1, Hc1.
    assert (H2 : coherent db (run_calls db between first.2))
      by by apply run_calls_coherent.
    destruct (invoke_coherent db op now2 _ H2) as [H3 _].
    fold second in H3. split; congruence.
Qed.

(** ** A run of the script *)

Lemma M_bind_ok {A B} (m : M A) (f : A → M B) (c c' : cache) (a : A) :
  m c = (Ok a, c') → (m ≫= f) c = f a c'.
Proof. intros E. unfold mbind, M_bind. by rewrite E. Qed.

(** With both tables readable and a cache that agrees with the store, a run
    past the sidebar renders the frames of the four queries. *)
Lemma dashboard_renders_queries (tr : list trades.row)
    (sent : list market_sentiment.row) (selected_agent : string) (now : Z)
    (c : cache) :
  coherent (mk_database (Some tr) (Some sent)) c →
  ∃ c',
    dashboard (mk_database (Some tr) (Some sent)) false selected_agent now c
    = (result_map Rendered
         (render ("Semua" :: sql_agent_list tr) selected_agent
            (sql_load_trades tr) (sql_agent_performance tr)
            (sql_sentiment_history sent) (sql_equity_curve tr)), c').
Proof.
  intros Hc. set (db := mk_database (Some tr) (Some sent)) in *.
  destruct (load_trades_coherent db now c Hc) as [E1 Hc1].
  set (c1 := (load_trades db now c).2) in *.
  destruct (load_agent_performance_coherent db now c1 Hc1) as [E2 Hc2].
  set (c2 := (load_agent_performance db now c1).2) in *.
  destruct (load_sentiment_history_coherent db now c2 Hc2) as [E3 _].
  set (c3 := (load_sentiment_history db now c2).2) in *.
  exists c3. unfold dashboard.
  rewrite (M_bind_ok _ _ c c (sql_agent_list tr)) by done.
  rewrite (M_bind_ok _ _ c c1 (sql_load_trades tr))
    by (apply injective_projections; [exact E1|done]).
  rewrite (M_bind_ok _ _ c1 c2 (sql_agent_performance tr))
    by (apply injective_projections; [exact E2|done]).
  rewrite (M_bind_ok _ _ c2 c3 (sql_sentiment_history sent))
    by (apply injective_projections; [exact E3|done]).
  rewrite (M_bind_ok _ _ c3 c3 (sql_equity_curve tr)) by done.
  unfold mbind, M_bind, lift, mret, M_ret.
  by destruct (render _ _ _ _ _ _).
Qed.

(** C6, as stated, fails: with an unreachable store each of the four
    operations raises, and the run of the script ends with that error
    instead of a rendered page. *)
Lemma query_failure_is_uncaught :
  (load_trades unreachable_store 0 cache_empty).1 = Raise DatabaseError
  ∧ (load_agent_performance unreachable_store 0 cache_empty).1
    = Raise DatabaseError
  ∧ (load_sentiment_history unreachable_store 0 cache_empty).1
    = Raise DatabaseError
  ∧ (get_equity_curve unreachable_store cache_empty).1 = Raise DatabaseError
  ∧ (dashboard unreachable_store false "Semua" 0 cache_empty).1
    = Raise DatabaseError
  ∧ ¬ ∃ p, (dashboard unreachable_store false "Semua" 0 cache_empty).1
           = Ok (Rendered p).
Proof. repeat split; try done. by intros [p Hp]. Qed.

(** C6, amended.  When a table cannot be read, an operation that reads it
    raises the error of the query, unless its cache still holds a value
    younger than its time to live ([get_equity_curve] has no cache).
    Nothing catches the error: with the trades table unreadable a run of
    the script that gets past the sidebar ends with it, whatever the cache
    holds.  The notes of the page stand for empty frames only. *)
Theorem query_failure_propagates
    (tr : option (list trades.row))
    (sent : option (list market_sentiment.row))
    (selected_agent : string) (now : Z) (c : cache) :
  (load_trades (mk_database None sent) now c).1
  = cached_or_raise 10 now (trades_entry c)
  ∧ (load_agent_performance (mk_database None sent) now c).1
    = cached_or_raise 60 now (perf_entry c)
  ∧ (load_sentiment_history (mk_database tr None) now c).1
    = cached_or_raise 300 now (sentiment_entry c)
  ∧ get_equity_curve (mk_database None sent) c = (Raise DatabaseError, c)
  ∧ dashboard (mk_database None sent) false selected_agent now c
    = (Raise DatabaseError, c)
  ∧ (∀ equity_df msg, equity_panel_of equity_df = Info msg ↔
       equity_df = [] ∧ msg = "Belum ada data equity")
  ∧ (∀ filtered msg, trade_history_panel_of filtered = Info msg ↔
       filtered = [] ∧ msg = "Belum ada data trade").
Proof.
  split; [apply cache_data_raise|].
  split; [apply cache_data_raise|].
  split; [apply cache_data_raise|].
  split; [done|]. split; [done|].
  split.
  - intros [|r l] msg; simpl; split; [by intros [= <-]|by intros [_ ->]| |];
      [intros [=]|by intros [[=] _]].
  - intros [|r l] msg; simpl; split; [by intros [= <-]|by intros [_ ->]| |];
      [intros [=]|by intros [[=] _]].
Qed.

(** C7, as stated, fails: the sentiment history is read from the table
    market_sentiment, and is not empty because the trades table is. *)
Lemma sentiment_history_not_empty :
  trades_table store_without_trades = Some []
  ∧ (load_sentiment_history store_without_trades 0 cache_empty).1
    = Ok [one_reading]
  ∧ (load_sentiment_history store_without_trades 0 cache_empty).1 ≠ Ok [].
Proof. split; [done|]. split; [by_evaluation|by_evaluation]. Qed.

Lemma filter_trades_nil (selected_agent : string) :
  filter_trades selected_agent [] = [].
Proof. unfold filter_trades. by case_decide. Qed.

Lemma sql_queries_nil :
  sql_load_trades [] = [] ∧ sql_agent_performance [] = []
  ∧ sql_equity_curve [] = [] ∧ sql_sentiment_history [] = []
  ∧ sql_agent_list [] = [].
Proof. by repeat split. Qed.

(** C7, amended.  For an empty trades table (and a readable sentiment
    table), whatever calls came before: RecentTrades, AgentPerformance and
    EquityCurve return empty frames, while SentimentHistory returns the
    latest readings of market_sentiment, none if that table is empty too;
    a run of the script raises nothing; the page shows Total Trades 0, Total
    Profit Rp0 and Win Rate 0%, and notes in place of the equity curve, the
    leaderboard, the trade table and the decision log. *)
Theorem empty_trades_table (sent : list market_sentiment.row)
    (selected_agent : string) (now : Z) (before : list (operation * Z)) :
  let db := mk_database (Some []) (Some sent) in
  let c := run_calls db before cache_empty in
  (invoke db RecentTrades now c).1 = Ok (TradesFrame [])
  ∧ (invoke db AgentPerformance now c).1 = Ok (PerfFrame [])
  ∧ (invoke db EquityCurve now c).1 = Ok (EquityFrame [])
  ∧ (invoke db SentimentHistory now c).1
    = Ok (SentimentFrame (sql_sentiment_history sent))
  ∧ sql_sentiment_history [] = []
  ∧ dashboard db true selected_agent now c = (Ok Rerun, c)
  ∧ ∃ p c',
      dashboard db false selected_agent now c = (Ok (Rendered p), c')
      ∧ total_trades_metric p = MetricCount 0
      ∧ total_profit_metric p = MetricText "Rp0"
      ∧ win_rate_metric p = MetricText "0%"
      ∧ metric_number (total_trades_metric p) = Some 0%Qc
      ∧ metric_number (total_profit_metric p) = Some 0%Qc
      ∧ metric_number (win_rate_metric p) = Some 0%Qc
      ∧ equity_panel p = Info "Belum ada data equity"
      ∧ leaderboard_panel p = Info "Belum ada data performa agent"
      ∧ trade_history_panel p = Info "Belum ada data trade"
      ∧ decision_logs_panel p = Info "Belum ada decision logs".
Proof.
  intros db c.
  assert (Hc : coherent db c) by apply run_calls_coherent, coherent_empty.
  split; [by rewrite (proj1 (invoke_coherent db RecentTrades now c Hc))|].
  split; [by rewrite (proj1 (invoke_coherent db AgentPerformance now c Hc))|].
  split; [by rewrite (proj1 (invoke_coherent db EquityCurve now c Hc))|].
  split; [by rewrite (proj1 (invoke_coherent db SentimentHistory now c Hc))|].
  split; [done|]. split; [done|].
  destruct (dashboard_renders_queries [] sent selected_agent now c Hc)
    as [c' Hrun].
  destruct sql_queries_nil as (E1 & E2 & E3 & _ & E5).
  rewrite E1, E2, E3, E5 in Hrun.
  unfold render in Hrun. simpl win_rate_metric_of in Hrun.
  rewrite filter_trades_nil in Hrun.
  eexists _, c'. split; [exact Hrun|].
  repeat split; try done.
  simpl. f_equal. exact Qc_of_Z_0.
Qed.

(** ** The decision log *)

Lemma trades_df_get_reflection (r : trades_df.row) (dflt : cell) :
  trades_df.get "reflection" dflt r = dflt.
Proof. reflexivity. Qed.

Lemma decision_log_body (r : trades_df.row) :
  body (decision_log r) = [ReasonLine (cell_of_text (trades_df.reason r))].
Proof. reflexivity. Qed.

(** C8.  The stored trade has a reflection, yet its expander shows the
    reason alone: the frame of [load_trades] has no reflection column, so
    [row.get('reflection')] is None for every row and the Reflection line
    is never written. *)
Theorem reflection_is_not_shown :
  trades.reflection reflected_trade = Some "entered too early"
  ∧ decision_logs_panel_of
      (filter_trades "Semua" (sql_load_trades [reflected_trade]))
    = Shown [mk_expander 1 (Some "BUY") (Some "Alpha") (Some (Q2Qc (4 # 5)))
               [ReasonLine (CText "breakout above resistance")]]
  ∧ ∀ r : trades_df.row,
      body (decision_log r) = [ReasonLine (cell_of_text (trades_df.reason r))].
Proof.
  split; [done|]. split; [by_evaluation|].
  apply decision_log_body.
Qed.

(** * Further properties of the code *)

(** ** The loaded windows *)

(** The first [n] rows of a sorted list lie before all the others. *)
Lemma take_sorted_before_rest {A} (R : relation A) `{∀ x y, Decision (R x y)}
    `{!Transitive R, !Total R} (n : nat) (l : list A) :
  let sorted := merge_sort R l in
  take n sorted ++ drop n sorted ≡ₚ l
  ∧ StronglySorted R (take n sorted)
  ∧ Forall (λ later, Forall (λ first, R first later) (take n sorted))
      (drop n sorted)
  ∧ length (take n sorted) = (n `min` length l)%nat.
Proof.
  intros sorted.
  assert (Hs : StronglySorted R sorted) by by apply StronglySorted_merge_sort.
  assert (Hp : sorted ≡ₚ l) by apply merge_sort_Permutation.
  rewrite <- (take_drop n sorted) in Hs.
  apply StronglySorted_app in Hs as (Hcross & Htake & _).
  split; [by rewrite take_drop|]. split; [done|]. split.
  - apply Forall_forall. intros later Hl.
    apply Forall_forall. intros first Hf. by apply Hcross.
  - by rewrite length_take, Hp.
Qed.

(** X1.  [load_trades] returns the 100 newest rows of the table, newest
    first (all rows when the table holds at most 100): every stored row it
    leaves out is no newer than every row it returns. *)
Theorem load_trades_newest_first (tbl : list trades.row) :
  let df := sql_load_trades tbl in
  length df = (100 `min` length tbl)%nat
  ∧ StronglySorted (ts_desc trades_df.timestamp) df
  ∧ ∃ left_out,
      df ++ left_out ≡ₚ select_trade <$> tbl
      ∧ Forall (λ old,
          Forall (λ r, trades_df.timestamp old ≤ trades_df.timestamp r) df)
          left_out.
Proof.
  intros df.
  destruct (take_sorted_before_rest (ts_desc trades_df.timestamp) 100
              (select_trade <$> tbl)) as (Hp & Hs & Hcross & Hlen).
  split; [by rewrite length_fmap in Hlen|]. split; [done|].
  by eexists.
Qed.

(** X2.  [load_sentiment_history] returns the 50 newest readings, newest
    first, and the metric Sentimen Terkini shows the signal of a reading
    that no stored reading is newer than. *)
Theorem latest_sentiment_is_newest (tbl : list market_sentiment.row) :
  tbl ≠ [] →
  length (sql_sentiment_history tbl) = (50 `min` length tbl)%nat
  ∧ StronglySorted (ts_desc market_sentiment.timestamp)
      (sql_sentiment_history tbl)
  ∧ ∃ latest,
      latest ∈ tbl
      ∧ (∀ r, r ∈ tbl →
              market_sentiment.timestamp r ≤ market_sentiment.timestamp latest)
      ∧ sentiment_metric_of (sql_sentiment_history tbl)
        = MetricSignal (market_sentiment.sentiment_signal latest).
Proof.
  intros Hne.
  destruct (take_sorted_before_rest (ts_desc market_sentiment.timestamp) 50
              tbl) as (Hp & Hs & Hcross & Hlen).
  split; [done|]. split; [done|].
  unfold sql_sentiment_history in *.
  set (sorted := merge_sort (ts_desc market_sentiment.timestamp) tbl) in *.
  assert (Hperm : sorted ≡ₚ tbl) by apply merge_sort_Permutation.
  assert (Hsorted : StronglySorted (ts_desc market_sentiment.timestamp) sorted)
    by (apply StronglySorted_merge_sort; apply _).
  destruct sorted as [|latest rest].
  { by apply Permutation_nil_l in Hperm. }
  exists latest. split; [rewrite <- Hperm; left|]. split; [|done].
  intros r Hr. rewrite <- Hperm in Hr.
  apply StronglySorted_cons in Hsorted as [Hall _].
  apply elem_of_cons in Hr as [->|Hr]; [done|].
  rewrite Forall_forall in Hall. by apply Hall.
Qed.

Lemma latest_sentiment_is_newest_witness :
  sentiment_metric_of (sql_sentiment_history two_readings)
  = MetricSignal (Some "BULLISH")
  ∧ ∃ latest,
      latest ∈ two_readings
      ∧ (∀ r, r ∈ two_readings →
              market_sentiment.timestamp r ≤ market_sentiment.timestamp latest)
      ∧ sentiment_metric_of (sql_sentiment_history two_readings)
        = MetricSignal (market_sentiment.sentiment_signal latest).
Proof.
  split; [reflexivity|].
  apply (latest_sentiment_is_newest two_readings). discriminate.
Defined.

(** X3.  The two sentiment charts plot the loaded readings, at most 50, in
    ascending order of time, whatever order the query returned them in, and
    the signal chart takes no value besides -1, 0 and 1. *)
Theorem sentiment_series_chronological (tbl : list market_sentiment.row) :
  let df := sql_sentiment_history tbl in
  (signal_series df).*1 ≡ₚ market_sentiment.timestamp <$> df
  ∧ StronglySorted Z.le (signal_series df).*1
  ∧ length (signal_series df) = (50 `min` length tbl)%nat
  ∧ Forall (λ pt, pt.2 = -1 ∨ pt.2 = 0 ∨ pt.2 = 1) (signal_series df)
  ∧ ∀ scores, sentiment_score_panel_of df = Shown scores →
              scores.*1 = (signal_series df).*1.
Proof.
  intros df. unfold signal_series, chronological.
  set (asc := merge_sort (ts_asc market_sentiment.timestamp) df).
  assert (Hp : asc ≡ₚ df) by apply merge_sort_Permutation.
  assert (Hs : StronglySorted (ts_asc market_sentiment.timestamp) asc)
    by (apply StronglySorted_merge_sort; apply _).
  rewrite <- !list_fmap_compose.
  split; [by rewrite <- Hp|]. split.
  { eapply StronglySorted_fmap; [|exact Hs]. done. }
  split.
  { rewrite length_fmap, Hp. unfold df, sql_sentiment_history.
    by rewrite length_take, merge_sort_Permutation. }
  split.
  { apply Forall_fmap, Forall_forall. intros r _. simpl.
    rewrite signal_value_axis. unfold signal_axis.
    repeat case_decide; auto. }
  intros scores Hshown. unfold sentiment_score_panel_of in Hshown.
  destruct df as [|r0 df0] eqn:Edf; [discriminate|].
  injection Hshown as <-. rewrite <- list_fmap_compose.
  unfold chronological. done.
Qed.

(** ** Totals over the groups *)

Section group_totals.
Context {T : Type} (add : T → T → T) (zero : T).
Context `{!Assoc (=) add, !Comm (=) add, !LeftId (=) zero add}.
Context (measure : agg → T) (weight : trades.row * Qc → T).
Hypothesis measure_init : measure agg_init = zero.
Hypothesis measure_step :
  ∀ a rp, measure (agg_step a rp) = add (measure a) (weight rp).

Lemma foldr_add_Permutation (l k : list T) :
  l ≡ₚ k → foldr add zero l = foldr add zero k.
Proof.
  induction 1 as [|x l k _ IH|x y l|l k m _ IH1 _ IH2]; simpl.
  - done.
  - by rewrite IH.
  - by rewrite !(assoc add), (comm add x y).
  - congruence.
Qed.

Lemma group_step_total (m : gmap (option string) agg)
    (rp : trades.row * Qc) :
  foldr add zero
    (measure ∘ snd
     <$> map_to_list
           (partial_alter (λ o, Some (agg_step (default agg_init o) rp))
              (trades.agent_name rp.1) m))
  = add (weight rp) (foldr add zero (measure ∘ snd <$> map_to_list m)).
Proof.
  set (k := trades.agent_name rp.1).
  assert (E : partial_alter (λ o, Some (agg_step (default agg_init o) rp)) k m
              = <[k := agg_step (default agg_init (m !! k)) rp]> m).
  { apply partial_alter_ext. by intros o <-. }
  rewrite E. clear E.
  destruct (m !! k) as [ag|] eqn:Hk.
  - rewrite <- insert_delete_eq.
    rewrite (foldr_add_Permutation _
               (measure ∘ snd
                <$> (k, agg_step (default agg_init (Some ag)) rp)
                    :: map_to_list (delete k m)))
      by (apply fmap_Permutation, map_to_list_insert, lookup_delete_eq).
    rewrite (foldr_add_Permutation (measure ∘ snd <$> map_to_list m)
               (measure ∘ snd <$> (k, ag) :: map_to_list (delete k m)))
      by (apply fmap_Permutation; symmetry; by apply map_to_list_delete).
    csimpl. rewrite measure_step.
    by rewrite (comm add (measure ag)), <- (assoc add).
  - rewrite (foldr_add_Permutation _
               (measure ∘ snd
                <$> (k, agg_step (default agg_init None) rp)
                    :: map_to_list m))
      by (by apply fmap_Permutation, map_to_list_insert).
    csimpl. by rewrite measure_step, measure_init, (left_id zero add).
Qed.

Lemma group_by_agent_total (rows : list (trades.row * Qc)) :
  foldr add zero (measure ∘ snd <$> map_to_list (group_by_agent rows))
  = foldr add zero (weight <$> rows).
Proof.
  unfold group_by_agent.
  assert (Hgen : ∀ m : gmap (option string) agg,
    foldr add zero
      (measure ∘ snd
       <$> map_to_list
             (foldl (λ m rp,
                       partial_alter
                         (λ o, Some (agg_step (default agg_init o) rp))
                         (trades.agent_name rp.1) m) m rows))
    = add (foldr add zero (weight <$> rows))
        (foldr add zero (measure ∘ snd <$> map_to_list m))).
  { induction rows as [|rp rows IH]; intros m; csimpl.
    - by rewrite (left_id zero add).
    - rewrite IH, group_step_total.
      by rewrite !(assoc add), (comm add _ (weight rp)). }
  rewrite Hgen, map_to_list_empty. csimpl.
  by rewrite (comm add), (left_id zero add).
Qed.

End group_totals.

Lemma foldr_count (l : list (trades.row * Qc)) :
  foldr Z.add 0 ((λ _, 1) <$> l) = Z.of_nat (length l).
Proof. induction l as [|x l IH]; csimpl; [done|]. rewrite IH. lia. Qed.

Lemma foldr_count_wins (l : list (trades.row * Qc)) :
  foldr Z.add 0 ((λ rp, if bool_decide (0 < rp.2)%Qc then 1 else 0) <$> l)
  = Z.of_nat (length (filter (λ rp, (0 < rp.2)%Qc) l)).
Proof.
  induction l as [|x l IH]; csimpl; [done|].
  rewrite IH, filter_cons.
  case_bool_decide; [rewrite decide_True by done|
                     rewrite decide_False by done]; csimpl; lia.
Qed.

Lemma total_profit_conserved (tbl : list trades.row) :
  qsum (agent_perf.total_profit <$> sql_agent_performance tbl)
  = qsum (closed tbl).*2.
Proof.
  rewrite (qsum_Permutation _ _
             (fmap_Permutation _ _ _ (sql_agent_performance_groups tbl))).
  unfold qsum. rewrite <- list_fmap_compose.
  apply (group_by_agent_total Qcplus 0%Qc sum_profit snd); [done|].
  intros a rp. simpl. ring.
Qed.

(** X4.  Over the rows of AgentPerformance the trade counts add up to the
    number of closed trades of the table, the wins to the number of closed
    trades with a profit above 0, and the total profits to the sum of all
    realized profit; every row counts at least one trade and no more wins
    than trades. *)
Theorem agent_performance_totals (tbl : list trades.row) :
  foldr Z.add 0 (agent_perf.total_trades <$> sql_agent_performance tbl)
  = Z.of_nat (length (closed tbl))
  ∧ count_total_wins (sql_agent_performance tbl)
    = Z.of_nat (length (filter (λ rp, (0 < rp.2)%Qc) (closed tbl)))
  ∧ qsum (agent_perf.total_profit <$> sql_agent_performance tbl)
    = qsum (closed tbl).*2
  ∧ Forall (λ row, 1 ≤ agent_perf.total_trades row
                   ∧ 0 ≤ agent_perf.wins row ≤ agent_perf.total_trades row)
      (sql_agent_performance tbl).
Proof.
  split; [|split; [|split]].
  - rewrite (zsum_Permutation _ _
               (fmap_Permutation _ _ _ (sql_agent_performance_groups tbl))).
    rewrite <- list_fmap_compose, <- foldr_count.
    apply (group_by_agent_total Z.add 0 count_star (λ _, 1)); [done|].
    intros a rp. simpl. lia.
  - unfold count_total_wins.
    rewrite (zsum_Permutation _ _
               (fmap_Permutation _ _ _ (sql_agent_performance_groups tbl))).
    rewrite <- list_fmap_compose, <- foldr_count_wins.
    apply (group_by_agent_total Z.add 0 sum_wins
             (λ rp, if bool_decide (0 < rp.2)%Qc then 1 else 0)); [done|].
    intros a rp. simpl. lia.
  - apply total_profit_conserved.
  - apply Forall_forall. intros row Hrow.
    by apply (agent_row_counts tbl).
Qed.

(** ** Realized profit across the views *)

Lemma closed_profits (tbl : list trades.row) :
  omap trades_df.profit (select_trade <$> tbl) = (closed tbl).*2.
Proof.
  unfold closed. induction tbl as [|r tbl IH]; [done|].
  csimpl. rewrite IH. by destruct (trades.profit r).
Qed.

(** X5.  The last point of the equity curve holds all realized profit: the
    sum of the profits of every closed trade, which is also the sum of the
    total profits of the leaderboard; and no closed trade is later than that
    point. *)
Theorem equity_curve_ends_at_total_profit (tbl : list trades.row)
    (pt : equity.row) :
  last (sql_equity_curve tbl) = Some pt →
  equity.cumulative_profit pt = qsum (closed tbl).*2
  ∧ equity.cumulative_profit pt
    = qsum (agent_perf.total_profit <$> sql_agent_performance tbl)
  ∧ Forall (λ rp, closed_timestamp rp ≤ equity.timestamp pt) (closed tbl).
Proof.
  unfold sql_equity_curve.
  set (rows := merge_sort (ts_asc closed_timestamp) (closed tbl)).
  assert (Hperm : rows ≡ₚ closed tbl) by apply merge_sort_Permutation.
  assert (Hsorted : StronglySorted (ts_asc closed_timestamp) rows)
    by (apply StronglySorted_merge_sort; apply _).
  rewrite fmap_last. intros Hlast.
  destruct (last rows) as [cur|] eqn:Ecur; [|discriminate].
  injection Hlast as <-.
  assert (Hall : Forall (λ rp, closed_timestamp rp ≤ closed_timestamp cur)
                   (closed tbl)).
  { rewrite <- Hperm. apply last_Some in Ecur as [front Efront].
    rewrite Efront in Hsorted |- *.
    apply StronglySorted_app in Hsorted as (Hcross & _ & _).
    apply Forall_app. split; [|by repeat constructor].
    apply Forall_forall. intros rp Hin. apply (Hcross rp cur Hin). left. }
  assert (E : equity.cumulative_profit (equity_point rows cur)
              = qsum (closed tbl).*2).
  { unfold rows. rewrite equity_point_sum. by rewrite filter_all. }
  split; [done|]. split; [by rewrite total_profit_conserved|done].
Qed.

Lemma equity_curve_ends_at_total_profit_witness :
  last (sql_equity_curve three_trades)
  = Some (equity.mk 3 (Qc_of_Z 25))
  ∧ Qc_of_Z 25 = qsum (closed three_trades).*2.
Proof.
  assert (H : last (sql_equity_curve three_trades)
              = Some (equity.mk 3 (Qc_of_Z 25))) by by_evaluation.
  split; [exact H|].
  exact (proj1 (equity_curve_ends_at_total_profit three_trades _ H)).
Defined.

(** X6.  For a table of at most 100 trades the headline Total Profit is the
    sum of all realized profit, which is also the sum of the total profits
    of AgentPerformance. *)
Theorem total_profit_covers_short_history (tbl : list trades.row) :
  (length tbl ≤ 100)%nat →
  sum_profit_column (sql_load_trades tbl) = qsum (closed tbl).*2
  ∧ sum_profit_column (sql_load_trades tbl)
    = qsum (agent_perf.total_profit <$> sql_agent_performance tbl).
Proof.
  intros Hlen.
  assert (E : sum_profit_column (sql_load_trades tbl) = qsum (closed tbl).*2).
  { unfold sum_profit_column, sql_load_trades.
    rewrite take_ge
      by (by rewrite merge_sort_Permutation, length_fmap).
    rewrite <- closed_profits.
    apply qsum_Permutation, omap_Permutation, merge_sort_Permutation. }
  split; [done|]. by rewrite total_profit_conserved.
Qed.

Lemma total_profit_covers_short_history_witness :
  sum_profit_column (sql_load_trades three_trades)
  = qsum (closed three_trades).*2.
Proof.
  apply (total_profit_covers_short_history three_trades).
  vm_compute. lia.
Defined.

(** ** The shape of the equity curve *)

Lemma qsum_filter_mono (l : list (trades.row * Qc))
    (P Q : trades.row * Qc → Prop)
    `{∀ x, Decision (P x)} `{∀ x, Decision (Q x)} :
  Forall (λ rp, (0 ≤ rp.2)%Qc) l →
  (∀ x, P x → Q x) →
  (qsum (filter P l).*2 ≤ qsum (filter Q l).*2)%Qc.
Proof.
  intros Hpos HPQ. unfold qsum.
  induction Hpos as [|x l Hx _ IH]; [done|].
  rewrite !filter_cons.
  destruct (decide (P x)) as [HP|HP].
  - rewrite decide_True by auto. csimpl. by apply Qcplus_le_mono_l.
  - destruct (decide (Q x)); [|done]. csimpl.
    etrans; [exact IH|].
    rewrite <- (Qcplus_0_l (foldr Qcplus _ _)) at 1.
    by apply Qcplus_le_mono_r.
Qed.

(** X7.  When no closed trade has a negative profit the equity curve never
    falls: its values are in non-decreasing order. *)
Theorem equity_curve_monotone (tbl : list trades.row) :
  Forall (λ rp, (0 ≤ rp.2)%Qc) (closed tbl) →
  StronglySorted Qcle (equity.cumulative_profit <$> sql_equity_curve tbl).
Proof.
  intros Hpos. unfold sql_equity_curve.
  set (rows := merge_sort (ts_asc closed_timestamp) (closed tbl)).
  assert (Hperm : rows ≡ₚ closed tbl) by apply merge_sort_Permutation.
  assert (Hsorted : StronglySorted (ts_asc closed_timestamp) rows)
    by (apply StronglySorted_merge_sort; apply _).
  rewrite <- list_fmap_compose.
  eapply StronglySorted_fmap; [|exact Hsorted].
  intros x y Hxy. simpl. unfold window_frame.
  apply qsum_filter_mono; [by rewrite Hperm|].
  intros rp. unfold ts_asc in Hxy. lia.
Qed.

Lemma equity_curve_monotone_witness :
  StronglySorted Qcle
    (equity.cumulative_profit <$> sql_equity_curve (winning_history 3)).
Proof.
  apply (equity_curve_monotone (winning_history 3)).
  by_evaluation.
Defined.

(** ** Win rates within bounds *)

Lemma rate_in_range (w n : Z) :
  0 ≤ w → w ≤ n → 0 < n →
  (0 ≤ Qc_of_Z w / Qc_of_Z n * Qc_of_Z 100
   ∧ Qc_of_Z w / Qc_of_Z n * Qc_of_Z 100 ≤ Qc_of_Z 100)%Qc.
Proof.
  intros H0 Hw Hn. unfold Qcle, Qcdiv, Qcmult, Qcinv, Q2Qc.
  cbn [this Qc_of_Z]. rewrite !Qred_correct.
  destruct n as [|p|p]; try lia.
  unfold Qle, Qmult, Qinv, inject_Z. cbn. split; nia.
Qed.

(** X8.  On the leaderboard the win rate of every agent is a number between
    0 and 100: the division by the trade count of a group never meets 0 and
    never yields NaN or infinity. *)
Theorem leaderboard_win_rate_in_range (tbl : list trades.row) :
  Forall (λ lr, ∃ q, win_rate lr = Finite q
                     ∧ (0 ≤ q)%Qc ∧ (q ≤ Qc_of_Z 100)%Qc)
    (leaderboard (sql_agent_performance tbl)).
Proof.
  unfold leaderboard. rewrite merge_sort_Permutation.
  apply Forall_fmap, Forall_forall. intros row Hrow. unfold compose.
  rewrite (leaderboard_win_rate_finite tbl row Hrow).
  destruct (agent_row_counts tbl row Hrow) as (Hn & Hw0 & Hw).
  eexists. split; [done|]. apply rate_in_range; lia.
Qed.

Lemma wins_among_buy_sell (tbl : list trades.row) :
  Forall (λ r, ∀ p, trades.profit r = Some p → (0 < p)%Qc →
               trades.action r ∈ [Some "BUY"; Some "SELL"]) tbl →
  (length (filter (λ rp, (0 < rp.2)%Qc) (closed tbl))
   ≤ length (filter is_buy_or_sell (select_trade <$> tbl)))%nat.
Proof.
  unfold closed. induction 1 as [|r tbl Hr _ IH]; [done|].
  rewrite fmap_cons, (filter_cons _ (select_trade r)). cbn [omap list_omap].
  fold (omap (λ r, pair r <$> trades.profit r) tbl).
  destruct (decide (is_buy_or_sell (select_trade r))) as [Hbs|Hbs];
    (destruct (trades.profit r) as [p|] eqn:Ep; csimpl;
     [rewrite filter_cons; case_decide as Hp|]);
    csimpl; try lia.
  destruct Hbs. unfold is_buy_or_sell. apply bool_decide_pack.
  by apply (Hr p).
Qed.

(** X9.  When the table holds at most 100 trades and every winning closed
    trade is a BUY or a SELL, the headline win rate lies between 0 and
    100. *)
Theorem headline_win_rate_at_most_100 (tbl : list trades.row) :
  (length tbl ≤ 100)%nat →
  Forall (λ r, ∀ p, trades.profit r = Some p → (0 < p)%Qc →
               trades.action r ∈ [Some "BUY"; Some "SELL"]) tbl →
  ∃ m q,
    win_rate_metric_of (sql_agent_performance tbl)
      (count_total_trades (sql_load_trades tbl)) = Ok m
    ∧ metric_number m = Some q
    ∧ (0 ≤ q)%Qc ∧ (q ≤ Qc_of_Z 100)%Qc.
Proof.
  intros Hlen Hact.
  destruct (win_rate_metric_number (sql_agent_performance tbl)
              (count_total_trades (sql_load_trades tbl))
              (count_total_trades_nonneg _)) as (m & Hm & Hnum).
  exists m. eexists. split; [exact Hm|]. split; [exact Hnum|].
  case_decide as Hz; [done|].
  pose proof (count_total_trades_nonneg (sql_load_trades tbl)).
  apply rate_in_range; [|  |lia].
  - rewrite total_wins_whole_history. lia.
  - rewrite total_wins_whole_history.
    unfold count_total_trades, sql_load_trades.
    rewrite take_ge by (by rewrite merge_sort_Permutation, length_fmap).
    rewrite (filter_Permutation _ _ _ (merge_sort_Permutation _ _)).
    apply inj_le. by apply wins_among_buy_sell.
Qed.

Lemma headline_win_rate_at_most_100_witness :
  ∃ m q,
    win_rate_metric_of (sql_agent_performance three_trades)
      (count_total_trades (sql_load_trades three_trades)) = Ok m
    ∧ metric_number m = Some q
    ∧ (0 ≤ q)%Qc ∧ (q ≤ Qc_of_Z 100)%Qc.
Proof.
  apply (headline_win_rate_at_most_100 three_trades).
  - vm_compute. lia.
  - repeat (apply List.Forall_cons || apply List.Forall_nil);
      intros p _ _; by_evaluation.
Defined.

(** ** Stale and failed reads *)

(** X10.  A cached operation keeps answering with what it read until its
    time to live is over, whatever has become of the store in between, an
    unreadable store included: after a first call at [t0] on a readable
    store, a call at [t1] on any store returns the first result while
    t1 - t0 is below 10 s (trades), 60 s (agent performance) or 300 s
    (sentiment), and reads the store it is given from then on. *)
Theorem cached_answers_until_ttl (tr : list trades.row)
    (sent : list market_sentiment.row) (db' : database) (t0 t1 : Z) :
  let db := mk_database (Some tr) (Some sent) in
  (load_trades db' t1 (load_trades db t0 cache_empty).2).1
  = (if decide (t1 - t0 < 10) then Ok (sql_load_trades tr)
     else read_sql_query sql_load_trades (trades_table db'))
  ∧ (load_agent_performance db' t1
       (load_agent_performance db t0 cache_empty).2).1
    = (if decide (t1 - t0 < 60) then Ok (sql_agent_performance tr)
       else read_sql_query sql_agent_performance (trades_table db'))
  ∧ (load_sentiment_history db' t1
       (load_sentiment_history db t0 cache_empty).2).1
    = (if decide (t1 - t0 < 300) then Ok (sql_sentiment_history sent)
       else read_sql_query sql_sentiment_history (sentiment_table db')).
Proof.
  intros db. unfold load_trades, load_agent_performance,
    load_sentiment_history, cache_data. simpl.
  repeat split; case_decide; try done;
    by destruct (read_sql_query _ _).
Qed.

(** X11.  A failed read is not cached and drops the entry that had run
    out: once a cached operation has raised, its next call reads the store
    again, however soon it comes. *)
Theorem failed_read_is_not_cached (sent : option (list market_sentiment.row))
    (db' : database) (t0 t1 : Z) (c : cache) :
  (load_trades (mk_database None sent) t0 c).1 = Raise DatabaseError →
  trades_entry (load_trades (mk_database None sent) t0 c).2 = None
  ∧ (load_trades db' t1 (load_trades (mk_database None sent) t0 c).2).1
    = read_sql_query sql_load_trades (trades_table db').
Proof.
  unfold load_trades, cache_data. simpl.
  destruct (trades_entry c) as [e|]; [case_decide; [discriminate|]|];
    intros _; simpl; (split; [done|]); by destruct (read_sql_query _ _).
Qed.

Lemma failed_read_is_not_cached_witness :
  (load_trades (mk_database (Some three_trades) (Some [])) 1
     (load_trades unreachable_store 0 cache_empty).2).1
  = Ok (sql_load_trades three_trades).
Proof.
  exact (proj2 (failed_read_is_not_cached None
                  (mk_database (Some three_trades) (Some [])) 0 1 cache_empty
                  eq_refl)).
Defined.

(** ** The agent selector *)

(** X12.  The selector offers Semua first and then every agent name that
    some stored trade carries, each once; every named agent of the
    leaderboard and of the loaded trades is among them; and the whole list
    is free of repetition exactly when no stored trade belongs to an agent
    that is itself called Semua. *)
Theorem agent_options_listing (tbl : list trades.row) :
  NoDup (sql_agent_list tbl)
  ∧ (∀ a, a ∈ sql_agent_list tbl
          ↔ ∃ r, r ∈ tbl ∧ trades.agent_name r = Some a)
  ∧ (∀ row a, row ∈ sql_agent_performance tbl →
              agent_perf.agent_name row = Some a → a ∈ sql_agent_list tbl)
  ∧ (∀ r a, r ∈ sql_load_trades tbl →
            trades_df.agent_name r = Some a → a ∈ sql_agent_list tbl)
  ∧ (NoDup ("Semua" :: sql_agent_list tbl)
     ↔ ¬ ∃ r, r ∈ tbl ∧ trades.agent_name r = Some "Semua").
Proof.
  assert (Hin : ∀ a, a ∈ sql_agent_list tbl
                     ↔ ∃ r, r ∈ tbl ∧ trades.agent_name r = Some a).
  { intros a. unfold sql_agent_list.
    rewrite elem_of_remove_dups, list_elem_of_omap. done. }
  split; [apply NoDup_remove_dups|]. split; [exact Hin|].
  split; [|split].
  - intros row a (a' & Hne & ->)%sql_agent_performance_elem_of Ha.
    simpl in Ha. subst a'. apply Hin.
    destruct (closed_trades_of (Some a) tbl) as [|[r p] rest] eqn:E; [done|].
    assert (Hrp : (r, p) ∈ closed_trades_of (Some a) tbl)
      by (rewrite E; left).
    apply list_elem_of_filter in Hrp as [Hag Hrp].
    apply closed_elem_of in Hrp as [Hr _]. by exists r.
  - intros r a Hr Ha. apply Hin.
    assert (Hr' : r ∈ merge_sort (ts_desc trades_df.timestamp)
                        (select_trade <$> tbl))
      by (eapply elem_of_sublist; [exact Hr|apply sublist_take]).
    rewrite merge_sort_Permutation in Hr'.
    apply list_elem_of_fmap in Hr' as (r0 & -> & Hr0). by exists r0.
  - rewrite NoDup_cons, Hin. split; [by intros [? _]|].
    intros Hno. split; [done|apply NoDup_remove_dups].
Qed.

(** ** The filtered trades *)

Lemma strongly_sorted_sublist {A} (R : relation A) (k l : list A) :
  k `sublist_of` l → StronglySorted R l → StronglySorted R k.
Proof.
  induction 1 as [|x k l Hsub IH|x k l Hsub IH]; intros Hs.
  - constructor.
  - apply StronglySorted_cons in Hs as [Hall Hs].
    constructor; [by apply IH|].
    apply Forall_forall. intros y Hy. rewrite Forall_forall in Hall.
    apply Hall. by eapply elem_of_sublist.
  - apply StronglySorted_cons in Hs as [_ Hs]. by apply IH.
Qed.

Lemma filter_trades_sublist (selected_agent : string)
    (trades_df : list trades_df.row) :
  filter_trades selected_agent trades_df `sublist_of` trades_df.
Proof. unfold filter_trades. case_decide; [apply sublist_filter|done]. Qed.

(** *** Columns without a value *)

Lemma all_null_spec (col : trades_df.row → option Qc)
    (trades_df : list trades_df.row) :
  all_null col trades_df = true ↔ ∀ r, r ∈ trades_df → col r = None.
Proof.
  unfold all_null. induction trades_df as [|r0 l IH]; simpl.
  - split; [|done]. intros _ r Hr. by apply elem_of_nil in Hr.
  - rewrite andb_true_iff, IH, bool_decide_eq_true. split.
    + intros [H1 H2] r [->|Hr]%elem_of_cons; auto.
    + intros H. split; [apply H; left|]. intros r Hr. apply H. by right.
Qed.

Lemma all_null_false (col : trades_df.row → option Qc)
    (trades_df : list trades_df.row) :
  all_null col trades_df = false
  ↔ ∃ r, r ∈ trades_df ∧ is_Some (col r).
Proof.
  rewrite <- not_true_iff_false, all_null_spec. split.
  - intros Hnot. induction trades_df as [|r0 l IH].
    + destruct Hnot. intros r Hr. by apply elem_of_nil in Hr.
    + destruct (col r0) as [q|] eqn:E.
      * exists r0. split; [left|]. by rewrite E.
      * destruct IH as (r & Hr & Hs).
        { intros Hl. apply Hnot. intros r [->|Hr]%elem_of_cons; auto. }
        exists r. split; [by right|done].
  - intros (r & Hr & [q Hq]) Hall. by rewrite (Hall r Hr) in Hq.
Qed.

(** A check of the cells of a column, run over rows of the frame, raises
    exactly when there is a row to check and the column has no value. *)
Lemma applymap_column {B} (col : trades_df.row → option Qc)
    (check : real_cell → result B) (trades_df rows : list trades_df.row) :
  check PyNone = Raise TypeError →
  (∀ c, c ≠ PyNone → ∃ y, check c = Ok y) →
  (∀ r, r ∈ rows → r ∈ trades_df) →
  (all_null col trades_df = true ∧ rows ≠ []
   ∧ applymap (λ r, check (real_cell_of col trades_df r)) rows
     = Raise TypeError)
  ∨ ((all_null col trades_df = false ∨ rows = [])
     ∧ ∃ ys, applymap (λ r, check (real_cell_of col trades_df r)) rows
             = Ok ys).
Proof.
  intros Hnone Hsome Hsub.
  destruct (all_null col trades_df) eqn:Hall.
  - destruct rows as [|r rest]; [right; split; [by right|by eexists]|].
    left. split; [done|]. split; [done|].
    assert (Hr : col r = None).
    { apply (proj1 (all_null_spec col trades_df) Hall), Hsub. left. }
    simpl. unfold real_cell_of. by rewrite Hr, Hall, Hnone.
  - right. split; [by left|]. clear Hsub.
    induction rows as [|r rest [ys IH]]; [by eexists|].
    simpl. rewrite IH.
    destruct (Hsome (real_cell_of col trades_df r)) as [y ->]; [|by eexists].
    unfold real_cell_of. rewrite Hall. by destruct (col r).
Qed.

Lemma st_dataframe_cases (trades_df filtered : list trades_df.row) :
  (∀ r, r ∈ filtered → r ∈ trades_df) →
  (all_null trades_df.profit trades_df = true ∧ filtered ≠ []
   ∧ st_dataframe trades_df filtered = Raise TypeError)
  ∨ ((all_null trades_df.profit trades_df = false ∨ filtered = [])
     ∧ ∃ styles, st_dataframe trades_df filtered = Ok styles).
Proof.
  apply (applymap_column trades_df.profit (λ c, color_profit (round_0 c)));
    [done|].
  intros [| |q] Hc; [done|by eexists..].
Qed.

Lemma expander_titles_cases (trades_df filtered : list trades_df.row) :
  (∀ r, r ∈ filtered → r ∈ trades_df) →
  (all_null trades_df.confidence trades_df = true ∧ filtered ≠ []
   ∧ expander_titles trades_df filtered = Raise TypeError)
  ∨ ((all_null trades_df.confidence trades_df = false ∨ filtered = [])
     ∧ ∃ titles, expander_titles trades_df filtered = Ok titles).
Proof.
  intros Hsub.
  destruct (applymap_column trades_df.confidence format_2f trades_df
              (take 5 filtered)) as [(Hall & Hne & E)|([Hall|Hnil] & E)].
  - done.
  - intros [| |q] Hc; [done|by eexists..].
  - intros r Hr. apply Hsub.
    eapply elem_of_sublist; [exact Hr|apply sublist_take].
  - left. split; [done|]. split; [|done]. by intros ->.
  - right. split; [by left|done].
  - right. split; [|done]. right. by destruct filtered.
Qed.

(** X13.  What a run shows of the trade history, for every table, agent
    selection and other frames.  When no loaded trade passes the agent
    filter, the trade table and the decision log show their notes.
    Otherwise, when no loaded trade has a profit the trade table raises a
    TypeError (its colour function compares None with 0), and when no loaded
    trade has a confidence the first title of the decision log does (None
    is formatted as a number); nothing else is raised.  Otherwise the table
    shows the filtered trades, and the decision log opens at most five
    expanders, for the newest loaded trades that pass the filter, newest
    first, all of the selected agent when one is selected. *)
Theorem decision_logs_newest_of_agent (tbl : list trades.row)
    (selected_agent : string) (options : list string)
    (agent_perf : list agent_perf.row)
    (sentiment_df : list market_sentiment.row) (equity_df : list equity.row) :
  let trades_df := sql_load_trades tbl in
  let filtered := filter_trades selected_agent trades_df in
  match render options selected_agent trades_df agent_perf sentiment_df
          equity_df with
  | Raise e =>
      e = TypeError ∧ filtered ≠ []
      ∧ ((∀ r, r ∈ trades_df → trades_df.profit r = None)
         ∨ (∀ r, r ∈ trades_df → trades_df.confidence r = None))
  | Ok p =>
      (filtered = []
       ∧ decision_logs_panel p = Info "Belum ada decision logs"
       ∧ trade_history_panel p = Info "Belum ada data trade")
      ∨ ((∃ r, r ∈ trades_df ∧ is_Some (trades_df.profit r))
         ∧ (∃ r, r ∈ trades_df ∧ is_Some (trades_df.confidence r))
         ∧ trade_history_panel p = Shown filtered
         ∧ ∃ logs,
             decision_logs_panel p = Shown logs
             ∧ length logs = (5 `min` length filtered)%nat
             ∧ (0 < length logs)%nat
             ∧ title_timestamp <$> logs
               = trades_df.timestamp <$> take 5 filtered
             ∧ StronglySorted (λ a b, title_timestamp b ≤ title_timestamp a)
                 logs
             ∧ (selected_agent ≠ "Semua" →
                Forall (λ e, title_agent_name e = Some selected_agent) logs))
  end.
Proof.
  intros trades_df filtered.
  assert (Hsub : ∀ r, r ∈ filtered → r ∈ trades_df).
  { intros r Hr.
    eapply elem_of_sublist; [exact Hr|apply filter_trades_sublist]. }
  assert (Hsorted : StronglySorted (ts_desc trades_df.timestamp)
                      (take 5 filtered)).
  { apply (strongly_sorted_sublist _ _ trades_df).
    - etrans; [apply sublist_take|apply filter_trades_sublist].
    - apply (take_sorted_before_rest (ts_desc trades_df.timestamp) 100
               (select_trade <$> tbl)). }
  unfold render.
  destruct (win_rate_metric_number agent_perf (count_total_trades trades_df)
              (count_total_trades_nonneg _)) as (m & -> & _).
  cbn zeta. fold filtered.
  destruct (st_dataframe_cases trades_df filtered Hsub)
    as [(Hall & Hne & ->)|(Hprofit & styles & ->)].
  { split; [done|]. split; [done|]. left. by apply all_null_spec. }
  destruct (expander_titles_cases trades_df filtered Hsub)
    as [(Hall & Hne & ->)|(Hconf & titles & ->)].
  { split; [done|]. split; [done|]. right. by apply all_null_spec. }
  cbn [trade_history_panel decision_logs_panel].
  destruct filtered as [|r rest] eqn:E; [left; done|right].
  destruct Hprofit as [Hprofit|?]; [|done].
  destruct Hconf as [Hconf|?]; [|done].
  split; [by apply all_null_false|]. split; [by apply all_null_false|].
  split; [done|].
  exists (decision_log <$> take 5 (r :: rest)).
  split; [done|].
  split; [by rewrite length_fmap, length_take|].
  split; [simpl; lia|].
  split; [by rewrite <- list_fmap_compose|].
  split.
  - eapply StronglySorted_fmap; [|exact Hsorted]. done.
  - intros Hsel. apply Forall_fmap, Forall_forall. intros x Hx.
    unfold compose. simpl.
    assert (Hx' : x ∈ filter_trades selected_agent trades_df).
    { fold filtered. rewrite E.
      eapply elem_of_sublist; [exact Hx|apply sublist_take]. }
    unfold filter_trades in Hx'. rewrite decide_True in Hx' by done.
    by apply list_elem_of_filter in Hx' as [? _].
Qed.

(** A store whose only trade is still open: the run ends with the
    TypeError of the trade table. *)
Example open_trade_raises :
  (dashboard (mk_database (Some [open_trade 1 1 "A"]) (Some two_readings))
     false "Semua" 0 cache_empty).1
  = Raise TypeError.
Proof. vm_compute. reflexivity. Qed.

(** ** The trade table: rounding and colours *)

(** The fractional part of a number against one half. *)
Lemma frac_compare (q : Qc) :
  match (q - Qc_of_Z (Qfloor q) ?= Q2Qc (1 # 2))%Qc with
  | Lt => (this q - inject_Z (Qfloor q) < 1 # 2)%Q
  | Gt => (1 # 2 < this q - inject_Z (Qfloor q))%Q
  | Eq => (this q - inject_Z (Qfloor q) == 1 # 2)%Q
  end.
Proof.
  destruct (q - Qc_of_Z (Qfloor q) ?= Q2Qc (1 # 2))%Qc eqn:E.
  - apply Qceq_alt in E. apply (f_equal this) in E.
    unfold Qcminus, Qcplus, Qcopp, Q2Qc in E. cbn [this Qc_of_Z] in E.
    rewrite <- (Qred_correct (1 # 2)), <- E, !Qred_correct.
    unfold Qminus. reflexivity.
  - apply Qclt_alt in E. unfold Qclt, Qcminus, Qcplus, Qcopp, Q2Qc in E.
    cbn [this Qc_of_Z] in E. rewrite !Qred_correct in E. exact E.
  - apply Qcgt_alt in E. unfold Qcminus, Qcplus, Qcopp, Q2Qc in E.
    cbn [this Qc_of_Z] in E. rewrite !Qred_correct in E. exact E.
Qed.

Lemma round_half_even_cases (q : Qc) :
  let f := Qfloor q in
  let x := (this q - inject_Z f)%Q in
  (0 <= x)%Q ∧ (x < 1)%Q ∧
  ((x < 1 # 2)%Q ∧ round_half_even q = f
   ∨ (1 # 2 < x)%Q ∧ round_half_even q = f + 1
   ∨ (x == 1 # 2)%Q ∧ round_half_even q = (if Z.even f then f else f + 1)).
Proof.
  intros f x.
  pose proof (Qfloor_le q) as H1. pose proof (Qlt_floor q) as H2.
  rewrite inject_Z_plus in H2. change (inject_Z 1) with 1%Q in H2.
  fold f in H1, H2.
  split; [subst x; lra|]. split; [subst x; lra|].
  pose proof (frac_compare q) as H. fold f in H. fold x in H.
  unfold round_half_even. fold f.
  destruct (q - Qc_of_Z f ?= Q2Qc (1 # 2))%Qc; auto.
Qed.

Lemma round_half_even_pos (q : Qc) :
  0 < round_half_even q ↔ (Q2Qc (1 # 2) < q)%Qc.
Proof.
  destruct (round_half_even_cases q) as (H0 & H1 & H).
  set (f := Qfloor q) in *. set (x := (this q - inject_Z f)%Q) in *.
  assert (Hq : (this q == inject_Z f + x)%Q) by (subst x; ring).
  unfold Qclt. cbn [this Q2Qc]. rewrite Qred_correct, Hq.
  destruct (Z_lt_le_dec 0 f) as [Hf|Hf].
  - assert (1 <= f) as Hf1 by lia. rewrite Zle_Qle in Hf1.
    change (inject_Z 1) with 1%Q in Hf1.
    split; [intros _; lra|intros _].
    destruct H as [[_ ->]|[[_ ->]|[_ ->]]]; [lia|lia|destruct (Z.even f); lia].
  - destruct (Z.eq_dec f 0) as [Ef|Ef].
    + rewrite Ef in *. change (inject_Z 0) with 0%Q.
      change (Z.even 0) with true in H.
      destruct H as [[Hx ->]|[[Hx ->]|[Hx ->]]]; split; intros Hgoal;
        try lia; try lra.
    + assert (f <= -1) as Hf1 by lia. rewrite Zle_Qle in Hf1.
      change (inject_Z (-1)) with (-1 # 1)%Q in Hf1.
      split; [|intros; lra].
      destruct H as [[_ ->]|[[_ ->]|[_ ->]]]; [lia|lia|destruct (Z.even f); lia].
Qed.

Lemma round_half_even_neg (q : Qc) :
  round_half_even q < 0 ↔ (q < Q2Qc (-1 # 2))%Qc.
Proof.
  destruct (round_half_even_cases q) as (H0 & H1 & H).
  set (f := Qfloor q) in *. set (x := (this q - inject_Z f)%Q) in *.
  assert (Hq : (this q == inject_Z f + x)%Q) by (subst x; ring).
  unfold Qclt. cbn [this Q2Qc]. rewrite Qred_correct, Hq.
  destruct (Z_lt_le_dec f (-1)) as [Hf|Hf].
  - assert (f <= -2) as Hf1 by lia. rewrite Zle_Qle in Hf1.
    change (inject_Z (-2)) with (-2 # 1)%Q in Hf1.
    split; [intros _; lra|intros _].
    destruct H as [[_ ->]|[[_ ->]|[_ ->]]]; [lia|lia|destruct (Z.even f); lia].
  - destruct (Z.eq_dec f (-1)) as [Ef|Ef].
    + rewrite Ef in *. change (inject_Z (-1)) with (-1 # 1)%Q.
      change (Z.even (-1)) with false in H.
      destruct H as [[Hx ->]|[[Hx ->]|[Hx ->]]]; split; intros Hgoal;
        try lia; try lra.
    + assert (0 <= f) as Hf1 by lia. rewrite Zle_Qle in Hf1.
      change (inject_Z 0) with 0%Q in Hf1.
      split; [|intros; lra].
      destruct H as [[_ ->]|[[_ ->]|[_ ->]]]; [lia|lia|destruct (Z.even f); lia].
Qed.

Lemma Qc_of_Z_pos (z : Z) : (0 < Qc_of_Z z)%Qc ↔ 0 < z.
Proof. unfold Qclt. cbn. by rewrite Zlt_Qlt. Qed.

Lemma Qc_of_Z_neg (z : Z) : (Qc_of_Z z < 0)%Qc ↔ z < 0.
Proof. unfold Qclt. cbn. by rewrite Zlt_Qlt. Qed.

Lemma color_profit_float (v : Qc) (style : string) :
  color_profit (PyFloat v) = Ok style
  ↔ (0 < v)%Qc ∧ style = "color: green"
    ∨ (v < 0)%Qc ∧ style = "color: red"
    ∨ ¬ (0 < v)%Qc ∧ ¬ (v < 0)%Qc ∧ style = "color: black".
Proof.
  unfold color_profit. split.
  - intros [= <-]. repeat case_decide; auto.
  - intros [[Hv ->]|[[Hv ->]|(Hp & Hn & ->)]].
    + by rewrite decide_True.
    + rewrite decide_False, decide_True; [done..|].
      by apply Qcle_not_lt, Qclt_le_weak.
    + by rewrite !decide_False.
Qed.

(** X14.  The style of the profit cell of a loaded trade.  When some
    loaded trade has a profit, the cell is coloured after the rounding:
    green exactly when the stored profit is above one half, red exactly
    when it is below minus one half, and black otherwise, a missing profit
    included.  When no loaded trade has a profit the cell has no style: the
    colour function raises a TypeError. *)
Theorem profit_colour_thresholds (trades_df : list trades_df.row)
    (r : trades_df.row) :
  r ∈ trades_df →
  let style := profit_style trades_df r in
  (style = Ok "color: green"
   ↔ ∃ p, trades_df.profit r = Some p ∧ (Q2Qc (1 # 2) < p)%Qc)
  ∧ (style = Ok "color: red"
     ↔ ∃ p, trades_df.profit r = Some p ∧ (p < Q2Qc (-1 # 2))%Qc)
  ∧ (style = Ok "color: black"
     ↔ (∃ p, trades_df.profit r = Some p
             ∧ (Q2Qc (-1 # 2) ≤ p)%Qc ∧ (p ≤ Q2Qc (1 # 2))%Qc)
       ∨ (trades_df.profit r = None
          ∧ ∃ r', r' ∈ trades_df ∧ is_Some (trades_df.profit r')))
  ∧ (style = Raise TypeError
     ↔ ∀ r', r' ∈ trades_df → trades_df.profit r' = None).
Proof.
  intros Hr. cbn zeta. unfold profit_style, real_cell_of.
  destruct (trades_df.profit r) as [p|] eqn:Ep.
  - cbn [round_0]. rewrite !color_profit_float.
    rewrite Qc_of_Z_pos, Qc_of_Z_neg, round_half_even_pos,
      round_half_even_neg.
    split; [|split; [|split]].
    + split.
      * intros [[Hp _]|[[_ [=]]|(_ & _ & [=])]]. by exists p.
      * intros (p' & [= <-] & Hp). by left.
    + split.
      * intros [[_ [=]]|[[Hp _]|(_ & _ & [=])]]. by exists p.
      * intros (p' & [= <-] & Hp). right. by left.
    + split.
      * intros [[_ [=]]|[[_ [=]]|(Hp & Hn & _)]]. left. exists p.
        split; [done|]. split; by apply Qcnot_lt_le.
      * intros [(p' & [= <-] & H1 & H2)|[[=] _]]. right. right.
        split; [by apply Qcle_not_lt|]. split; [by apply Qcle_not_lt|done].
    + split; [done|]. intros Hall. by rewrite (Hall r Hr) in Ep.
  - assert (Hgreen : ¬ ∃ p : Qc, None = Some p ∧ (Q2Qc (1 # 2) < p)%Qc)
      by (by intros (p & [=] & _)).
    assert (Hred : ¬ ∃ p : Qc, None = Some p ∧ (p < Q2Qc (-1 # 2))%Qc)
      by (by intros (p & [=] & _)).
    destruct (all_null trades_df.profit trades_df) eqn:Hall; cbn.
    + split; [done|]. split; [done|]. split.
      * split; [done|]. intros [(p & [=] & _)|[_ H%all_null_false]].
        congruence.
      * split; [|done]. intros _. by apply all_null_spec.
    + split; [done|]. split; [done|]. split.
      * split; [|done]. intros _. right. split; [done|].
        by apply all_null_false.
      * split; [done|]. intros H%all_null_spec. congruence.
Qed.

Lemma profit_colour_thresholds_witness :
  profit_style one_closed_trade (select_trade (closed_trade 1 1 "BUY" "A" 7))
  = Ok "color: green"
  ∧ profit_style open_trades_only (select_trade (open_trade 1 1 "A"))
    = Raise TypeError.
Proof.
  split.
  - apply (profit_colour_thresholds one_closed_trade
             (select_trade (closed_trade 1 1 "BUY" "A" 7))); [left|].
    eexists. split; [reflexivity|]. vm_compute. reflexivity.
  - apply (profit_colour_thresholds open_trades_only
             (select_trade (open_trade 1 1 "A"))); [left|].
    intros r' Hr'. repeat (apply elem_of_cons in Hr' as [->|Hr']; [done|]).
    by apply elem_of_nil in Hr'.
Defined.

Lemma round_half_even_near (x : Qc) :
  (inject_Z (round_half_even x) - this x <= 1 # 2
   ∧ this x - inject_Z (round_half_even x) <= 1 # 2)%Q.
Proof.
  destruct (round_half_even_cases x) as (H0 & H1 & H).
  set (f := Qfloor x) in *.
  destruct H as [[Hx ->]|[[Hx ->]|[Hx ->]]].
  - split; lra.
  - rewrite inject_Z_plus. change (inject_Z 1) with 1%Q. split; lra.
  - destruct (Z.even f).
    + split; lra.
    + rewrite inject_Z_plus. change (inject_Z 1) with 1%Q. split; lra.
Qed.

Lemma round_half_even_Z (z : Z) : round_half_even (Qc_of_Z z) = z.
Proof.
  unfold round_half_even. cbn [this Qc_of_Z]. rewrite Qfloor_Z.
  replace (Qc_of_Z z - Qc_of_Z z)%Qc with 0%Qc by ring. done.
Qed.

(** X15.  Rounding the profit column for display is idempotent and leaves
    a missing profit as it is; a profit becomes an integer no further than
    one half away, and an integer exactly one half away is even. *)
Theorem display_rounding (c : real_cell) (q : Qc) :
  round_0 (round_0 c) = round_0 c
  ∧ round_0 PyNaN = PyNaN
  ∧ round_0 PyNone = PyNone
  ∧ ∃ z : Z,
      round_0 (PyFloat q) = PyFloat (Qc_of_Z z)
      ∧ (Qc_of_Z z - q ≤ Q2Qc (1 # 2))%Qc
      ∧ (q - Qc_of_Z z ≤ Q2Qc (1 # 2))%Qc
      ∧ ((Qc_of_Z z - q = Q2Qc (1 # 2))%Qc ∨ (q - Qc_of_Z z = Q2Qc (1 # 2))%Qc
         → Z.even z = true).
Proof.
  split; [|split; [done|split; [done|]]].
  - destruct c as [| |x]; [done..|]. simpl. by rewrite round_half_even_Z.
  - exists (round_half_even q). split; [done|].
    pose proof (round_half_even_near q) as [H1 H2].
    split; [|split].
    + unfold Qcle, Qcminus, Qcplus, Qcopp, Q2Qc.
      cbn [this Qc_of_Z]. rewrite !Qred_correct. lra.
    + unfold Qcle, Qcminus, Qcplus, Qcopp, Q2Qc.
      cbn [this Qc_of_Z]. rewrite !Qred_correct. lra.
    + destruct (round_half_even_cases q) as (H0 & Hlt & H).
      set (f := Qfloor q) in *.
      intros Hhalf.
      assert (Hhalf' : (inject_Z (round_half_even q) - this q == 1 # 2
                        ∨ this q - inject_Z (round_half_even q) == 1 # 2)%Q).
      { destruct Hhalf as [E|E]; [left|right];
          apply (f_equal this) in E;
          unfold Qcminus, Qcplus, Qcopp, Q2Qc in E; cbn [this Qc_of_Z] in E;
          rewrite <- (Qred_correct (1 # 2)), <- E, !Qred_correct;
          unfold Qminus; reflexivity. }
      destruct H as [[Hx E]|[[Hx E]|[Hx E]]]; rewrite E in Hhalf' |- *.
      * destruct Hhalf'; lra.
      * rewrite inject_Z_plus in Hhalf'.
        change (inject_Z 1) with 1%Q in Hhalf'. destruct Hhalf'; lra.
      * destruct (Z.even f) eqn:Ef; [done|].
        by rewrite Z.even_add, Ef.
Qed.

(** ** Two runs on a changing store *)

Lemma first_run (tr : list trades.row) (sent : list market_sentiment.row)
    (selected_agent : string) (t0 : Z) :
  dashboard (mk_database (Some tr) (Some sent)) false selected_agent t0
    cache_empty
  = (result_map Rendered
       (render ("Semua" :: sql_agent_list tr) selected_agent
          (sql_load_trades tr) (sql_agent_performance tr)
          (sql_sentiment_history sent) (sql_equity_curve tr)),
     cache_after tr sent t0).
Proof.
  unfold dashboard, mbind, M_bind, mret, M_ret, lift, get_equity_curve,
    load_trades, load_agent_performance, load_sentiment_history, cache_after.
  simpl. by destruct (render _ _ _ _ _ _).
Qed.

(** X16.  Two runs past the sidebar, at [t0] from an empty cache and at
    [t1] after the store has changed: the second page takes the agent list
    and the equity curve from the new store, and the trades, the agent
    performance and the sentiment from the old store for as long as the
    entry of each is younger than 10, 60 and 300 seconds; between 10 and 60
    seconds the headline win rate therefore divides wins of the old store
    by trades of the new one. *)
Theorem second_run_mixes_stores (tr tr' : list trades.row)
    (sent sent' : list market_sentiment.row) (selected_agent : string)
    (t0 t1 : Z) :
  let db := mk_database (Some tr) (Some sent) in
  let db' := mk_database (Some tr') (Some sent') in
  (dashboard db' false selected_agent t1
     (dashboard db false selected_agent t0 cache_empty).2).1
  = result_map Rendered
      (render ("Semua" :: sql_agent_list tr') selected_agent
         (sql_load_trades (if decide (t1 - t0 < 10) then tr else tr'))
         (sql_agent_performance (if decide (t1 - t0 < 60) then tr else tr'))
         (sql_sentiment_history
            (if decide (t1 - t0 < 300) then sent else sent'))
         (sql_equity_curve tr')).
Proof.
  intros db db'. unfold db at 1. rewrite first_run. cbn [snd].
  unfold dashboard, mbind, M_bind, mret, M_ret, lift, get_equity_curve,
    load_trades, load_agent_performance, load_sentiment_history, cache_after,
    cache_data, db'.
  cbn [trades_entry perf_entry sentiment_entry computed_at value
       trades_table sentiment_table read_sql_query fst snd].
  repeat case_decide; unfold lift; cbn [fst snd];
    by destruct (render _ _ _ _ _ _).
Qed.

(** ** The headline win rate of a short history *)

Lemma count_all_buy_sell (tbl : list trades.row) :
  (length tbl ≤ 100)%nat →
  Forall (λ r, trades.action r ∈ [Some "BUY"; Some "SELL"]) tbl →
  count_total_trades (sql_load_trades tbl) = Z.of_nat (length tbl).
Proof.
  intros Hlen Hact. unfold count_total_trades, sql_load_trades.
  rewrite take_ge by (by rewrite merge_sort_Permutation, length_fmap).
  rewrite (filter_Permutation _ _ _ (merge_sort_Permutation _ _)).
  rewrite filter_all; [by rewrite length_fmap|].
  apply Forall_fmap. eapply Forall_impl; [exact Hact|].
  intros r Hr. unfold compose, is_buy_or_sell. by apply bool_decide_pack.
Qed.

(** X17.  For a table of at most 100 trades that are all BUY or SELL, the
    headline win rate is the number of closed trades with a profit above 0
    divided by the number of all trades, the open ones included, times
    100 (and 0 for an empty table). *)
Theorem headline_win_rate_short_history (tbl : list trades.row) :
  (length tbl ≤ 100)%nat →
  Forall (λ r, trades.action r ∈ [Some "BUY"; Some "SELL"]) tbl →
  ∃ m,
    win_rate_metric_of (sql_agent_performance tbl)
      (count_total_trades (sql_load_trades tbl)) = Ok m
    ∧ metric_number m
      = Some (if decide (tbl = []) then 0%Qc
              else (Qc_of_Z (Z.of_nat
                      (length (filter (λ rp, (0 < rp.2)%Qc) (closed tbl))))
                    / Qc_of_Z (Z.of_nat (length tbl)) * Qc_of_Z 100)%Qc).
Proof.
  intros Hlen Hact.
  destruct (win_rate_metric_number (sql_agent_performance tbl)
              (count_total_trades (sql_load_trades tbl))
              (count_total_trades_nonneg _)) as (m & Hm & Hnum).
  exists m. split; [exact Hm|]. rewrite Hnum.
  rewrite count_all_buy_sell, total_wins_whole_history by done.
  f_equal. destruct tbl as [|r tbl]; [done|].
  rewrite decide_False by (simpl; lia). by rewrite decide_False.
Qed.

Lemma headline_win_rate_short_history_witness :
  ∃ m,
    win_rate_metric_of (sql_agent_performance three_trades)
      (count_total_trades (sql_load_trades three_trades)) = Ok m
    ∧ metric_number m
      = Some (if decide (three_trades = []) then 0%Qc
              else (Qc_of_Z (Z.of_nat
                      (length (filter (λ rp, (0 < rp.2)%Qc)
                                 (closed three_trades))))
                    / Qc_of_Z (Z.of_nat (length three_trades))
                    * Qc_of_Z 100)%Qc).
Proof.
  apply (headline_win_rate_short_history three_trades).
  - vm_compute. lia.
  - repeat (apply List.Forall_cons || apply List.Forall_nil); by_evaluation.
Defined.
